(** * Structured-output helpers of the context-engineering demo scripts

    A shallow embedding of [6_structured_output.py] (the bounded-retry JSON
    enforcer, the shallow schema validator, the single-shot extractor and the
    example loops) and of the example loop of [2_few_shot_learning.py].

    Python strings are sequences of Unicode code points; the hosted
    completion call is an oracle over an abstract world state. *)

From Stdlib Require Import List String Ascii ZArith NArith Lia Bool.
From Stdlib Require Import DecimalString QArith_base.
Import ListNotations.

Set Implicit Arguments.
Set Warnings "-register-all".
Set Warnings "-automation".

Local Open Scope list_scope.

(** ** Python [str] *)

Definition char := N.
Definition str := list char.

(** A source literal, written as a Rocq string, as a Python [str]. *)
Definition py (s : string) : str := map N_of_ascii (list_ascii_of_string s).

Definition nl : str := [10%N].

(** [str.isspace] on one code point (CPython's [_PyUnicode_IsWhitespace]). *)
Definition isspace (c : char) : bool :=
  ((9 <=? c) && (c <=? 13) || (28 <=? c) && (c <=? 32)
   || (c =? 133) || (c =? 160) || (c =? 5760)
   || (8192 <=? c) && (c <=? 8202)
   || (c =? 8232) || (c =? 8233) || (c =? 8239) || (c =? 8287)
   || (c =? 12288))%N.

Fixpoint lstrip (s : str) : str :=
  match s with
  | c :: s' => if isspace c then lstrip s' else s
  | [] => []
  end.

Definition rstrip (s : str) : str := rev (lstrip (rev s)).

(** [s.strip()] *)
Definition strip (s : str) : str := rstrip (lstrip s).

(** [s.startswith(p)] *)
Fixpoint startswith (s p : str) {struct p} : bool :=
  match p, s with
  | [], _ => true
  | _ :: _, [] => false
  | a :: p', c :: s' => (c =? a)%N && startswith s' p'
  end.

(** The scan of [s.replace(old, new)] for a non-empty [old]: leftmost,
    non-overlapping matches; [skip] counts the characters of the current
    match that are still to be passed over. *)
Fixpoint replace_scan (old new : str) (skip : nat) (s : str) : str :=
  match s with
  | [] => []
  | c :: s' =>
      match skip with
      | S k => replace_scan old new k s'
      | O =>
          if startswith s old
          then new ++ replace_scan old new (List.length old - 1) s'
          else c :: replace_scan old new 0 s'
      end
  end.

(** [s.replace(old, new)]; with an empty [old], Python inserts [new] before
    every character and at the end. *)
Definition replace (s old new : str) : str :=
  match old with
  | [] => new ++ flat_map (fun c => c :: new) s
  | _ :: _ => replace_scan old new 0 s
  end.

(** [p in s] for strings: [p] occurs in [s] as a substring. *)
Fixpoint contains (s p : str) : bool :=
  startswith s p ||
  match s with
  | [] => false
  | _ :: s' => contains s' p
  end.

Definition str_eqb (a b : str) : bool :=
  if list_eq_dec N.eq_dec a b then true else false.

(** [str(n)] for a non-negative integer. *)
Definition str_of_nat (n : nat) : str :=
  py (NilEmpty.string_of_uint (Nat.to_uint n)).

Definition str_of_Z (z : Z) : str :=
  match z with
  | Zneg p => py "-" ++ str_of_nat (Pos.to_nat p)
  | _ => str_of_nat (Z.to_nat z)
  end.

(** ** Python values that JSON can carry *)

Inductive json : Type :=
| JNull                                (* None *)
| JBool (b : bool)
| JInt (z : Z)
| JFloat (lexeme : str)                (* a float, kept as its source text *)
| JStr (s : str)
| JArr (items : list json)
| JObj (members : list (str * json)).  (* dict, in insertion order *)

Definition dict := list (str * json).

(** [key in d] *)
Definition dict_mem (d : dict) (key : str) : bool :=
  existsb (fun kv => str_eqb (fst kv) key) d.

(** [d[key] = v]: an existing key keeps its position. *)
Fixpoint dict_set (d : dict) (key : str) (v : json) : dict :=
  match d with
  | [] => [(key, v)]
  | (k, x) :: d' =>
      if str_eqb k key then (k, v) :: d' else (k, x) :: dict_set d' key v
  end.

Definition dict_keys (d : dict) : list str := map fst d.

(** ** [json.loads]

    The decoder of Python's standard [json] module, as far as its result on
    a [str] goes: the JSON grammar of RFC 8259 in strict mode, with the
    constants [NaN], [Infinity] and [-Infinity] that the module accepts by
    default.  [None] stands for [json.JSONDecodeError].  The text is first
    cut into tokens by a state machine, then read by a stack automaton, so
    both passes are structural. *)

Inductive token : Type :=
| TLBrace | TRBrace | TLBrack | TRBrack | TColon | TComma
| TString (s : str)
| TAtom (v : json).

Definition is_json_ws (c : char) : bool :=
  ((c =? 32) || (c =? 9) || (c =? 10) || (c =? 13))%N.

Definition is_digit (c : char) : bool := ((48 <=? c) && (c <=? 57))%N.

(** Characters of numbers and of the bare constants. *)
Definition is_word_char (c : char) : bool :=
  (is_digit c || (65 <=? c) && (c <=? 90) || (97 <=? c) && (c <=? 122)
   || (c =? 43) || (c =? 45) || (c =? 46))%N.

Definition hex_value (c : char) : option N :=
  if is_digit c then Some (c - 48)%N
  else if ((97 <=? c) && (c <=? 102))%N then Some (c - 87)%N
  else if ((65 <=? c) && (c <=? 70))%N then Some (c - 55)%N
  else None.

Fixpoint all_digits (s : str) : bool :=
  match s with
  | [] => true
  | c :: s' => is_digit c && all_digits s'
  end.

Fixpoint digits_value (acc : Z) (s : str) : Z :=
  match s with
  | [] => acc
  | c :: s' => digits_value (10 * acc + Z.of_N (c - 48)) s'
  end.

(** Splits [s] after its longest prefix of digits. *)
Fixpoint span_digits (s : str) : str * str :=
  match s with
  | c :: s' =>
      if is_digit c
      then let (d, r) := span_digits s' in (c :: d, r)
      else ([], s)
  | [] => ([], [])
  end.

(** Nothing, or e or E, an optional sign and at least one digit. *)
Definition exponent_ok (s : str) : bool :=
  match s with
  | [] => true
  | e :: r =>
      ((e =? 101) || (e =? 69))%N &&
      match r with
      | sg :: d =>
          if ((sg =? 43) || (sg =? 45))%N
          then negb (match d with [] => true | _ => false end) && all_digits d
          else all_digits r
      | [] => false
      end
  end.

(** An optional fraction (a dot and at least one digit) and an optional
    exponent, up to the end of the word; tells whether either is present. *)
Definition fraction_exponent (s : str) : option bool :=
  match s with
  | [] => Some false
  | c :: r =>
      if (c =? 46)%N then
        let (d, r') := span_digits r in
        match d with
        | [] => None
        | _ :: _ => if exponent_ok r' then Some true else None
        end
      else if exponent_ok s then Some true else None
  end.

(** An optional minus sign, then 0 or a digit string without a leading 0,
    then [fraction_exponent]: an [int] when neither a fraction nor an
    exponent is there, a [float] otherwise. *)
Definition number_of_word (w : str) : option json :=
  let (neg, body) :=
    match w with
    | c :: r => if (c =? 45)%N then (true, r) else (false, w)
    | [] => (false, w)
    end in
  let (ds, rest) := span_digits body in
  match ds with
  | [] => None
  | d0 :: more =>
      if (d0 =? 48)%N && negb (match more with [] => true | _ => false end)
      then None
      else
        match fraction_exponent rest with
        | None => None
        | Some true => Some (JFloat w)
        | Some false =>
            let v := digits_value 0 ds in
            Some (JInt (if neg then - v else v)%Z)
        end
  end.

Definition atom_of_word (w : str) : option json :=
  if str_eqb w (py "null") then Some JNull
  else if str_eqb w (py "true") then Some (JBool true)
  else if str_eqb w (py "false") then Some (JBool false)
  else if str_eqb w (py "NaN") then Some (JFloat w)
  else if str_eqb w (py "Infinity") then Some (JFloat w)
  else if str_eqb w (py "-Infinity") then Some (JFloat w)
  else number_of_word w.

Inductive lex_state : Type :=
| LIdle
| LWord (rev_word : str)
| LStr (rev_acc : str) (high : bool)
| LEsc (rev_acc : str) (high : bool)
| LHex (rev_acc : str) (high : bool) (digits : list N).

(** One character between tokens. *)
Definition lex_idle (c : char) : option (lex_state * list token) :=
  if is_json_ws c then Some (LIdle, [])
  else if (c =? 123)%N then Some (LIdle, [TLBrace])
  else if (c =? 125)%N then Some (LIdle, [TRBrace])
  else if (c =? 91)%N then Some (LIdle, [TLBrack])
  else if (c =? 93)%N then Some (LIdle, [TRBrack])
  else if (c =? 58)%N then Some (LIdle, [TColon])
  else if (c =? 44)%N then Some (LIdle, [TComma])
  else if (c =? 34)%N then Some (LStr [] false, [])
  else if is_word_char c then Some (LWord [c], [])
  else None.

Definition is_high_surrogate (u : N) : bool :=
  ((55296 <=? u) && (u <=? 56319))%N.
Definition is_low_surrogate (u : N) : bool :=
  ((56320 <=? u) && (u <=? 57343))%N.

(** The character of a finished [\uXXXX] escape joins the escaped high
    surrogate just before it, when there is one and it is a low surrogate. *)
Definition push_escape (rev_acc : str) (high : bool) (u : N) : lex_state :=
  match rev_acc with
  | h :: acc' =>
      if high && is_low_surrogate u
      then LStr ((65536 + (N.lor (N.shiftl (h - 55296) 10) (u - 56320)))%N
                   :: acc') false
      else LStr (u :: rev_acc) (is_high_surrogate u)
  | [] => LStr [u] (is_high_surrogate u)
  end.

Definition lex_step (st : lex_state) (c : char)
  : option (lex_state * list token) :=
  match st with
  | LIdle => lex_idle c
  | LWord w =>
      if is_word_char c then Some (LWord (c :: w), [])
      else
        match atom_of_word (rev w), lex_idle c with
        | Some v, Some (st', toks) => Some (st', TAtom v :: toks)
        | _, _ => None
        end
  | LStr acc high =>
      if (c =? 34)%N then Some (LIdle, [TString (rev acc)])
      else if (c =? 92)%N then Some (LEsc acc high, [])
      else if (c <? 32)%N then None
      else Some (LStr (c :: acc) false, [])
  | LEsc acc high =>
      if ((c =? 34) || (c =? 92) || (c =? 47))%N
      then Some (LStr (c :: acc) false, [])
      else if (c =? 98)%N then Some (LStr (8%N :: acc) false, [])
      else if (c =? 102)%N then Some (LStr (12%N :: acc) false, [])
      else if (c =? 110)%N then Some (LStr (10%N :: acc) false, [])
      else if (c =? 114)%N then Some (LStr (13%N :: acc) false, [])
      else if (c =? 116)%N then Some (LStr (9%N :: acc) false, [])
      else if (c =? 117)%N then Some (LHex acc high [], [])
      else None
  | LHex acc high ds =>
      match hex_value c with
      | None => None
      | Some d =>
          match ds with
          | [d1; d2; d3] =>
              Some (push_escape acc high (((d1 * 16 + d2) * 16 + d3) * 16 + d)%N, [])
          | _ => Some (LHex acc high (ds ++ [d]), [])
          end
      end
  end.

Fixpoint lex (st : lex_state) (s : str) : option (list token) :=
  match s with
  | [] =>
      match st with
      | LIdle => Some []
      | LWord w =>
          match atom_of_word (rev w) with
          | Some v => Some [TAtom v]
          | None => None
          end
      | _ => None
      end
  | c :: s' =>
      match lex_step st c with
      | None => None
      | Some (st', toks) =>
          match lex st' s' with
          | None => None
          | Some rest => Some (toks ++ rest)
          end
      end
  end.

(** An open container: an array with the items read so far (last first), or
    an object with its members so far and the key that awaits its value. *)
Inductive frame : Type :=
| FArr (rev_items : list json)
| FObj (members : dict) (pending : option str).

Inductive expect : Type :=
| EValue            (* a value *)
| EValueOrClose     (* just after "[" *)
| EKeyOrClose       (* just after "{" *)
| EKey              (* after "," in an object *)
| EColon            (* after a key *)
| ESep              (* after a value inside a container *)
| EDone (v : json). (* the document is read *)

(** A value is complete: it goes to the innermost open container. *)
Definition deliver (v : json) (stack : list frame)
  : option (list frame * expect) :=
  match stack with
  | [] => Some ([], EDone v)
  | FArr items :: st => Some (FArr (v :: items) :: st, ESep)
  | FObj ms (Some k) :: st => Some (FObj (dict_set ms k v) None :: st, ESep)
  | FObj _ None :: _ => None
  end.

Definition close_array (stack : list frame) : option (list frame * expect) :=
  match stack with
  | FArr items :: st => deliver (JArr (rev items)) st
  | _ => None
  end.

Definition close_object (stack : list frame) : option (list frame * expect) :=
  match stack with
  | FObj ms None :: st => deliver (JObj ms) st
  | _ => None
  end.

Definition take_key (k : str) (stack : list frame)
  : option (list frame * expect) :=
  match stack with
  | FObj ms None :: st => Some (FObj ms (Some k) :: st, EColon)
  | _ => None
  end.

Definition start_value (t : token) (stack : list frame)
  : option (list frame * expect) :=
  match t with
  | TAtom v => deliver v stack
  | TString s => deliver (JStr s) stack
  | TLBrack => Some (FArr [] :: stack, EValueOrClose)
  | TLBrace => Some (FObj [] None :: stack, EKeyOrClose)
  | _ => None
  end.

Definition parse_step (stack : list frame) (e : expect) (t : token)
  : option (list frame * expect) :=
  match e, t with
  | EValue, _ => start_value t stack
  | EValueOrClose, TRBrack => close_array stack
  | EValueOrClose, _ => start_value t stack
  | EKeyOrClose, TRBrace => close_object stack
  | EKeyOrClose, TString k => take_key k stack
  | EKey, TString k => take_key k stack
  | EColon, TColon => Some (stack, EValue)
  | ESep, TComma =>
      match stack with
      | FArr _ :: _ => Some (stack, EValue)
      | FObj _ None :: _ => Some (stack, EKey)
      | _ => None
      end
  | ESep, TRBrack => close_array stack
  | ESep, TRBrace => close_object stack
  | _, _ => None
  end.

Fixpoint parse (stack : list frame) (e : expect) (ts : list token)
  : option json :=
  match ts with
  | [] => match e with EDone v => Some v | _ => None end
  | t :: ts' =>
      match parse_step stack e t with
      | None => None
      | Some (stack', e') => parse stack' e' ts'
      end
  end.

Definition json_loads (s : str) : option json :=
  match lex LIdle s with
  | None => None
  | Some ts => parse [] EValue ts
  end.

(** ** Exceptions and the completion call *)

Inductive exn : Type :=
| JSONDecodeError (msg : str)            (* json.JSONDecodeError, a ValueError *)
| ValueError (msg : str)
| IndexError (msg : str)
| TypeError (msg : str)
| AttributeError (msg : str)
| APIError (msg : str)                   (* a request or network failure *)
| Exception_ (msg : str) (cause : exn).  (* raise Exception(msg) from cause *)

(** [isinstance(e, ValueError)]: what [except (json.JSONDecodeError,
    ValueError)] catches. *)
Definition is_ValueError (e : exn) : bool :=
  match e with
  | JSONDecodeError _ | ValueError _ => true
  | _ => false
  end.

(** [str(e)] *)
Definition exn_str (e : exn) : str :=
  match e with
  | JSONDecodeError m | ValueError m | IndexError m | TypeError m
  | AttributeError m | APIError m | Exception_ m _ => m
  end.

Inductive result (A : Type) : Type :=
| Return (a : A)
| Raise (e : exn).
Arguments Raise {A} e.

Record ChatMessage : Type := { role : str; content : str }.

Record Request : Type := {
  model : str;
  api_key : option str;
  messages : list ChatMessage;
  temperature : Q
}.

(** The part of a completion response that the scripts read:
    [response["choices"][0]["message"]["content"]]. *)
Record ResponseMessage : Type := { message_content : option str }.
Record Choice : Type := { message : ResponseMessage }.
Record ModelResponse : Type := { choices : list Choice }.

(** A response with one choice holding [text]. *)
Definition text_response (text : str) : ModelResponse :=
  {| choices := [ {| message := {| message_content := Some text |} |} ] |}.

(** [response["choices"][0]["message"]["content"]] *)
Definition first_content (response : ModelResponse) : result (option str) :=
  match choices response with
  | [] => Raise (IndexError (py "list index out of range"))
  | c :: _ => Return (message_content (message c))
  end.

(** ** [validate_schema] *)

Definition validate_schema (data : json) (schema : dict) : bool :=
  match data with
  | JObj members => forallb (fun key => dict_mem members key) (dict_keys schema)
  | _ => false
  end.

(** ** Fence cleaning of [enforce_json_output] (the two branches on
    [result_text], after the first [strip]) *)

Definition backtick : char := 96%N.

Definition fence : str := py "```".
Definition fence_json : str := py "```json".

Definition clean_fences (result_text : str) : str :=
  if startswith result_text fence_json then
    strip (replace (replace result_text fence_json []) fence [])
  else if startswith result_text fence then
    strip (replace result_text fence [])
  else result_text.

(** [f"\n\nATTEMPT {attempt + 2}: Previous attempt failed. Return ONLY valid JSON."] *)
Definition retry_note (attempt : nat) : str :=
  nl ++ nl ++ py "ATTEMPT " ++ str_of_nat (attempt + 2)
     ++ py ": Previous attempt failed. Return ONLY valid JSON.".

Definition default_system_msg : str :=
  py "You are a JSON-only API. Return only valid JSON.".

(** [system_message or default]: [None] and the empty string are falsy. *)
Definition or_default (system_message : option str) (default : str) : str :=
  match system_message with
  | Some (c :: s) => c :: s
  | _ => default
  end.

(** [print(f"\033[94m{text}\033[0m")], as the line printed. *)
Definition blue (text : str) : str :=
  [27%N] ++ py "[94m" ++ text ++ [27%N] ++ py "[0m".

(** ** A scripted completion endpoint

    A world that answers the successive calls with the outcomes listed, and
    fails with a connection error once the list is used up. *)

Definition Script : Type := list (result ModelResponse).

Definition scripted_completion (w : Script) (_ : Request)
  : Script * result ModelResponse :=
  match w with
  | [] => ([], Raise (APIError (py "connection refused")))
  | r :: w' => (w', r)
  end.

(** An endpoint without state that gives the same outcome to every call. *)
Definition constant_completion (r : result ModelResponse) (w : unit)
  (_ : Request) : unit * result ModelResponse := (w, r).

Definition no_env (_ : str) : option str := None.

(** A stand-in for [json.dumps(_, indent=2)] that prints the keys of an
    object only. *)
Definition dumps_keys (v : json) : str :=
  match v with
  | JObj ms => py "{" ++ List.concat (map (fun kv => fst kv ++ py ",") ms) ++ py "}"
  | _ => py "null"
  end.

Definition plain_decode_msg (_ : str) : str := py "Expecting value".

(** [sep.join(lines)] with a newline as separator. *)
Fixpoint join_lines (lines : list str) : str :=
  match lines with
  | [] => []
  | [l] => l
  | l :: rest => l ++ nl ++ join_lines rest
  end.

(** A triple-quoted literal whose lines are indented by [indent]: it opens
    with a newline and ends with the indentation of its closing quotes;
    [None] is an empty line of the source. *)
Definition block (indent : str) (lines : list (option str)) : str :=
  join_lines
    ([] :: map (fun l => match l with None => [] | Some t => indent ++ t end) lines
        ++ [indent]).

Definition indent4 : str := py "    ".
Definition indent8 : str := py "        ".

Definition model_gpt_oss : str := py "openrouter/openai/gpt-oss-20b".
Definition model_gpt_oss_free : str := py "openrouter/openai/gpt-oss-20b:free".
Definition key_name : str := py "OPENROUTER_API_KEY".

(** ** The scripts, over an arbitrary completion endpoint *)

Section Scripts.

Variable World : Type.
(** [litellm.completion]: the endpoint answers or raises, and moves on. *)
Variable completion : World -> Request -> World * result ModelResponse.
(** [os.getenv] *)
Variable getenv : str -> option str.
(** [json.dumps(_, indent=2)] *)
Variable json_dumps : json -> str.
(** The message of the [JSONDecodeError] that [json.loads] raises on a text. *)
Variable decode_msg : str -> str.

(** What a run can observe: the endpoint's state, the requests sent to it so
    far (oldest first) and the lines printed so far. *)
Record State : Type := {
  world : World;
  calls : list Request;
  console : list str
}.

Definition M (A : Type) : Type := State -> result A * State.

Definition ret {A : Type} (a : A) : M A := fun st => (Return a, st).

Definition raise {A : Type} (e : exn) : M A := fun st => (Raise e, st).

Definition bind {A B : Type} (c : M A) (k : A -> M B) : M B :=
  fun st =>
    match c st with
    | (Return a, st') => k a st'
    | (Raise e, st') => (Raise e, st')
    end.

Notation "x <- c ;; k" := (bind c (fun x => k))
  (at level 61, c at next level, right associativity).
Notation "c ;;; k" := (bind c (fun _ => k))
  (at level 61, right associativity).

Definition lift {A : Type} (r : result A) : M A := fun st => (r, st).

(** [try: body / except Exception as e: handler e] *)
Definition try_except {A : Type} (body : M A) (handler : exn -> M A) : M A :=
  fun st =>
    match body st with
    | (Return a, st') => (Return a, st')
    | (Raise e, st') => handler e st'
    end.

Definition call_completion (req : Request) : M ModelResponse :=
  fun st =>
    let (w', r) := completion (world st) req in
    (r, {| world := w'; calls := calls st ++ [req]; console := console st |}).

Definition print (line : str) : M unit :=
  fun st =>
    (Return tt,
     {| world := world st; calls := calls st; console := console st ++ [line] |}).

(** [json.loads(text)] *)
Definition loads (text : str) : result json :=
  match json_loads text with
  | Some v => Return v
  | None => Raise (JSONDecodeError (decode_msg text))
  end.

(** *** [extract_structured_data] *)

Definition format_prompt (text : str) (schema : dict) : str :=
  block indent4
    [ Some (py "Extract information and return ONLY valid JSON matching this schema:");
      None;
      Some (py "Schema: " ++ json_dumps (JObj schema));
      None;
      Some (py "Text: " ++ text);
      None;
      Some (py "Rules:");
      Some (py "- Return ONLY the JSON object, no explanation");
      Some (py "- Use null for missing values");
      Some (py "- Validate types match the schema") ].

Definition extract_request (text : str) (schema : dict) : Request :=
  {| model := model_gpt_oss;
     api_key := getenv key_name;
     messages :=
       [ {| role := py "system";
            content := py "You are a JSON extraction expert. Output only valid JSON." |};
         {| role := py "user"; content := format_prompt text schema |} ];
     temperature := 0 # 1 |}.

Definition extract_structured_data (text : str) (schema : dict) : M json :=
  response <- call_completion (extract_request text schema) ;;
  raw <- lift (first_content response) ;;
  match raw with
  | None =>
      raise (TypeError
               (py "the JSON object must be str, bytes or bytearray, not NoneType"))
  | Some s => lift (loads s)
  end.

(** *** [create_json_enforcer] and its [enforce_json_output] *)

Definition initial_json_prompt (output_schema : dict) (prompt : str) : str :=
  block indent8
    [ Some prompt;
      None;
      Some (py "CRITICAL: Return ONLY valid JSON matching this exact schema:");
      Some (json_dumps (JObj output_schema));
      None;
      Some (py "Rules:");
      Some (py "- NO explanatory text");
      Some (py "- NO markdown formatting");
      Some (py "- NO code blocks");
      Some (py "- ONLY the JSON object");
      Some (py "- ALL required fields must be present") ].

Definition enforcer_request (system_msg json_prompt : str) : Request :=
  {| model := model_gpt_oss;
     api_key := getenv key_name;
     messages :=
       [ {| role := py "system"; content := system_msg |};
         {| role := py "user"; content := json_prompt |} ];
     temperature := 1 # 10 |}.

(** The body of the [try] of one attempt. *)
Definition attempt_body (output_schema : dict) (system_msg json_prompt : str)
  : M json :=
  response <- call_completion (enforcer_request system_msg json_prompt) ;;
  raw <- lift (first_content response) ;;
  match raw with
  | None =>
      raise (AttributeError (py "'NoneType' object has no attribute 'strip'"))
  | Some text =>
      let result_text := clean_fences (strip text) in
      parsed <- lift (loads result_text) ;;
      if validate_schema parsed output_schema
      then ret parsed
      else raise (ValueError (py "Schema validation failed"))
  end.

Definition failure_msg (max_retries : Z) (e : exn) : str :=
  py "Failed to get valid JSON after " ++ str_of_Z max_retries
     ++ py " attempts: " ++ exn_str e.

(** [for attempt in attempts: try: ... except (json.JSONDecodeError,
    ValueError) as e: ...], then [return None]. *)
Fixpoint retry_loop (output_schema : dict) (max_retries : Z) (system_msg : str)
  (attempts : list nat) (json_prompt : str) : M json :=
  match attempts with
  | [] => ret JNull
  | attempt :: rest =>
      fun st =>
        match attempt_body output_schema system_msg json_prompt st with
        | (Return parsed, st') => (Return parsed, st')
        | (Raise e, st') =>
            if is_ValueError e then
              if (Z.of_nat attempt =? max_retries - 1)%Z
              then (Raise (Exception_ (failure_msg max_retries e) e), st')
              else retry_loop output_schema max_retries system_msg rest
                     (json_prompt ++ retry_note attempt) st'
            else (Raise e, st')
        end
  end.

(** [range(n)] *)
Definition range (n : Z) : list nat := seq 0 (Z.to_nat n).

Definition enforce_json_output (output_schema : dict) (max_retries : Z)
  (prompt : str) (system_message : option str) : M json :=
  retry_loop output_schema max_retries
    (or_default system_message default_system_msg)
    (range max_retries)
    (initial_json_prompt output_schema prompt).

Definition default_max_retries : Z := 3.

Definition create_json_enforcer (output_schema : dict) (max_retries : Z)
  : str -> option str -> M json :=
  enforce_json_output output_schema max_retries.

(** *** The example loops of [6_structured_output.py] *)

Definition analysis_schema : dict :=
  [ (py "tables", JArr [JStr (py "list of table names")]);
    (py "operations", JArr [JStr (py "list of SQL operations")]);
    (py "complexity", JStr (py "low|medium|high"));
    (py "estimated_runtime", JStr (py "seconds as integer"));
    (py "potential_issues", JArr [JStr (py "list of potential problems")]);
    (py "optimization_suggestions", JArr [JStr (py "list of improvements")]);
    (py "confidence_score", JStr (py "float between 0 and 1")) ].

Definition queries_to_analyze : list str :=
  [ block indent8
      [ Some (py "SELECT u.name, COUNT(o.id) as order_count, SUM(o.total) as total_spent");
        Some (py "FROM users u");
        Some (py "LEFT JOIN orders o ON u.id = o.user_id");
        Some (py "WHERE u.created_at > '2024-01-01'");
        Some (py "GROUP BY u.id");
        Some (py "HAVING order_count > 5");
        Some (py "ORDER BY total_spent DESC") ];
    block indent8
      [ Some (py "SELECT * FROM products p, categories c, orders o, order_items oi");
        Some (py "WHERE p.category_id = c.id");
        Some (py "AND oi.product_id = p.id");
        Some (py "AND oi.order_id = o.id") ];
    block indent8
      [ Some (py "SELECT user_id FROM sessions WHERE last_activity > NOW() - INTERVAL 1 HOUR") ] ].

(** The [try]/[except Exception] around one call of an enforcer, with the
    prints of both branches. *)
Definition report (heading : str) (call : M json) : M unit :=
  try_except
    (result <- call ;;
     print heading ;;;
     print (blue (json_dumps result)) ;;;
     print [])
    (fun e => print (py "Error: " ++ exn_str e) ;;; print []).

(** [for i, query in enumerate(queries, i): ...] of
    [demonstrate_query_analysis]. *)
Fixpoint analysis_loop (enforcer : str -> option str -> M json) (i : nat)
  (queries : list str) : M unit :=
  match queries with
  | [] => ret tt
  | query :: rest =>
      print (py "--- Analysis " ++ str_of_nat i ++ py " ---") ;;;
      print (py "Query: " ++ strip query) ;;;
      report (py "Analysis:")
        (enforcer
           (py "Analyze this SQL query and provide structured output: " ++ query)
           (Some (py "You are a SQL analysis API that returns only JSON."))) ;;;
      analysis_loop enforcer (S i) rest
  end.

Definition demonstrate_query_analysis : M unit :=
  let enforcer := create_json_enforcer analysis_schema default_max_retries in
  print (py "=== STRUCTURED QUERY ANALYSIS ===" ++ nl) ;;;
  analysis_loop enforcer 1 queries_to_analyze.

Definition simple_schema : dict :=
  [ (py "status", JStr (py "success|error"));
    (py "message", JStr (py "string"));
    (py "data", JStr (py "any valid JSON value or null")) ].

Definition edge_cases : list str :=
  [ py "Analyze this completely invalid SQL: SELECT * FROM nowhere WHERE nothing = everything";
    py "What is the meaning of life?";
    py "Generate a SQL query for something impossible";
    [] ].

Fixpoint edge_loop (edge_enforcer : str -> option str -> M json) (i : nat)
  (cases : list str) : M unit :=
  match cases with
  | [] => ret tt
  | edge_case :: rest =>
      print (py "--- Edge Case " ++ str_of_nat i ++ py " ---") ;;;
      print (py "Input: '" ++ edge_case ++ py "'") ;;;
      report (py "Response:")
        (edge_enforcer edge_case
           (Some (py "Handle any input and return structured JSON response."))) ;;;
      edge_loop edge_enforcer (S i) rest
  end.

Definition test_edge_cases : M unit :=
  let edge_enforcer := create_json_enforcer simple_schema default_max_retries in
  print (py "=== EDGE CASES TEST ===" ++ nl) ;;;
  edge_loop edge_enforcer 1 edge_cases.

(** *** The example loop of [2_few_shot_learning.py] *)

Record Pattern : Type := {
  examples : list (str * str);
  test : str
}.

Definition error_analysis : Pattern :=
  {| examples :=
       [ (py "This query is slow",
          py "ISSUE: Performance | CAUSE: Missing index | FIX: ADD INDEX idx_user_email ON users(email)");
         (py "Query returns wrong data",
          py "ISSUE: Logic error | CAUSE: Incorrect JOIN condition | FIX: Change INNER JOIN to LEFT JOIN") ];
     test := py "Query times out" |}.

Definition code_review : Pattern :=
  {| examples :=
       [ (py "SELECT * FROM users",
          py "RATING: 2/5 | ISSUES: Using SELECT *, no WHERE clause | IMPROVE: Specify columns, add filtering");
         (py "SELECT u.id, u.name FROM users u WHERE u.active = 1",
          py "RATING: 4/5 | ISSUES: None major | IMPROVE: Consider adding LIMIT for large datasets") ];
     test := py "SELECT COUNT(" ++ py "*" ++ py ") FROM orders o, users u WHERE o.user_id = u.id" |}.

Definition patterns : list (str * Pattern) :=
  [ (py "Error Analysis", error_analysis); (py "Code Review", code_review) ].

(** The message list built for one pattern. *)
Definition pattern_messages (pattern_data : Pattern) : list ChatMessage :=
  [ {| role := py "system";
       content := py "You are a SQL expert. Follow the exact format shown in examples." |} ]
  ++ flat_map
       (fun ex =>
          [ {| role := py "user"; content := fst ex |};
            {| role := py "assistant"; content := snd ex |} ])
       (examples pattern_data)
  ++ [ {| role := py "user"; content := test pattern_data |} ].

Definition pattern_request (pattern_data : Pattern) : Request :=
  {| model := model_gpt_oss_free;
     api_key := getenv key_name;
     messages := pattern_messages pattern_data;
     temperature := 1 # 10 |}.

(** [f"{x}"] for an optional string. *)
Definition str_of_optional (x : option str) : str :=
  match x with
  | Some s => s
  | None => py "None"
  end.

(** [for pattern_name, pattern_data in patterns.items(): ...] *)
Fixpoint pattern_loop (items : list (str * Pattern)) : M unit :=
  match items with
  | [] => ret tt
  | (pattern_name, pattern_data) :: rest =>
      print (py "--- " ++ pattern_name ++ py " Pattern ---") ;;;
      response <- call_completion (pattern_request pattern_data) ;;
      print (py "Input: " ++ test pattern_data) ;;;
      print (py "Output:") ;;;
      text <- lift (first_content response) ;;
      print (blue (str_of_optional text)) ;;;
      print [] ;;;
      pattern_loop rest
  end.

Definition demonstrate_pattern_learning : M unit :=
  print (py "=== PATTERN LEARNING DEMO ===" ++ nl) ;;;
  pattern_loop patterns.

(** *** The other example loops and the script body of
    [6_structured_output.py] *)

Definition security_schema : dict :=
  [ (py "vulnerability_level", JStr (py "low|medium|high|critical"));
    (py "vulnerabilities_found", JArr [JStr (py "list of security issues")]);
    (py "sql_injection_risk", JStr (py "boolean"));
    (py "data_exposure_risk", JStr (py "boolean"));
    (py "recommendations", JArr [JStr (py "list of security fixes")]);
    (py "compliant_with_standards",
     JArr [JStr (py "list of standards: OWASP, PCI-DSS, etc")]);
    (py "audit_score", JStr (py "integer 1-10")) ].

Definition vulnerable_queries : list str :=
  [ py "SELECT * FROM users WHERE username = '" ++ py "user_input" ++ py "'";
    py "SELECT * FROM credit_cards WHERE user_id = 123";
    py "SELECT password_hash, salt FROM users WHERE email = ?";
    py "UPDATE users SET admin = 1 WHERE user_id = " ++ py "user_controlled_id" ].

Fixpoint security_loop (security_enforcer : str -> option str -> M json)
  (i : nat) (queries : list str) : M unit :=
  match queries with
  | [] => ret tt
  | query :: rest =>
      print (py "--- Security Audit " ++ str_of_nat i ++ py " ---") ;;;
      print (py "Query: " ++ query) ;;;
      report (py "Security Audit:")
        (security_enforcer
           (py "Perform a security audit on this SQL query: " ++ query)
           (Some (py "You are a security audit API that identifies vulnerabilities and returns only JSON."))) ;;;
      security_loop security_enforcer (S i) rest
  end.

Definition demonstrate_security_audit : M unit :=
  let security_enforcer :=
    create_json_enforcer security_schema default_max_retries in
  print (py "=== STRUCTURED SECURITY AUDIT ===" ++ nl) ;;;
  security_loop security_enforcer 1 vulnerable_queries.

Definition performance_schema : dict :=
  [ (py "estimated_execution_time", JStr (py "string with units"));
    (py "resource_usage",
     JObj [ (py "cpu_intensive", JStr (py "boolean"));
            (py "memory_intensive", JStr (py "boolean"));
            (py "io_intensive", JStr (py "boolean")) ]);
    (py "scalability_concerns", JArr [JStr (py "list of scalability issues")]);
    (py "recommended_indexes", JArr [JStr (py "list of index suggestions")]);
    (py "alternative_approaches",
     JArr [JStr (py "list of alternative query strategies")]);
    (py "bottlenecks", JArr [JStr (py "list of performance bottlenecks")]);
    (py "optimization_priority", JStr (py "low|medium|high")) ].

Definition performance_queries : list str :=
  [ block indent8
      [ Some (py "SELECT COUNT(" ++ py "*" ++ py ") FROM orders o");
        Some (py "JOIN order_items oi ON o.id = oi.order_id");
        Some (py "JOIN products p ON oi.product_id = p.id");
        Some (py "WHERE o.created_at > '2023-01-01'") ];
    block indent8
      [ Some (py "SELECT u.*,");
        Some (py "       (SELECT COUNT(" ++ py "*"
                ++ py ") FROM orders WHERE user_id = u.id) as order_count,");
        Some (py "       (SELECT SUM(total) FROM orders WHERE user_id = u.id) as total_spent");
        Some (py "FROM users u") ];
    block indent8
      [ Some (py "SELECT * FROM logs");
        Some (py "WHERE message LIKE '%error%'");
        Some (py "AND created_at BETWEEN '2024-01-01' AND '2024-12-31'");
        Some (py "ORDER BY created_at DESC") ] ].

Fixpoint performance_loop (perf_enforcer : str -> option str -> M json)
  (i : nat) (queries : list str) : M unit :=
  match queries with
  | [] => ret tt
  | query :: rest =>
      print (py "--- Performance Report " ++ str_of_nat i ++ py " ---") ;;;
      print (py "Query: " ++ strip query) ;;;
      report (py "Performance Report:")
        (perf_enforcer
           (py "Analyze the performance characteristics of this query: " ++ query)
           (Some (py "You are a database performance analysis API that returns only JSON."))) ;;;
      performance_loop perf_enforcer (S i) rest
  end.

Definition demonstrate_performance_report : M unit :=
  let perf_enforcer :=
    create_json_enforcer performance_schema default_max_retries in
  print (py "=== STRUCTURED PERFORMANCE REPORT ===" ++ nl) ;;;
  performance_loop perf_enforcer 1 performance_queries.

Definition main_schema : dict :=
  [ (py "tables", JArr [JStr (py "list of table names")]);
    (py "operations", JArr [JStr (py "list of SQL operations")]);
    (py "complexity", JStr (py "low|medium|high"));
    (py "estimated_runtime", JStr (py "seconds as integer")) ].

Definition query_text : str :=
  py "This query joins users with orders and filters by date, grouping results by region".

(** ["=" * 80] *)
Definition rule80 : str := repeat 61%N 80.

(** The body of [if __name__ == "__main__":]. *)
Definition main : M unit :=
  print (py "Structured Output Demo" ++ nl) ;;;
  print (py "=== BASIC EXTRACTION ===") ;;;
  print (py "Input: " ++ query_text) ;;;
  try_except
    (result <- extract_structured_data query_text main_schema ;;
     print (py "Extracted:") ;;;
     print (blue (json_dumps result)))
    (fun e => print (py "Error: " ++ exn_str e)) ;;;
  print (nl ++ rule80 ++ nl) ;;;
  demonstrate_query_analysis ;;;
  print (rule80 ++ nl) ;;;
  demonstrate_security_audit ;;;
  print (rule80 ++ nl) ;;;
  demonstrate_performance_report ;;;
  print (rule80 ++ nl) ;;;
  test_edge_cases.

(** *** The approaches of [2_few_shot_learning.py] and their comparison

    [zero_shot_approach] and [few_shot_approach] leave the temperature to
    the endpoint, so the arguments of the calls of these functions carry an
    optional one; a run records them next to the endpoint's state and the
    lines printed. *)

Record Call : Type := {
  call_model : str;
  call_api_key : option str;
  call_messages : list ChatMessage;
  call_temperature : option Q
}.

(** [litellm.completion], as these functions call it. *)
Variable completion_call : World -> Call -> World * result ModelResponse.

Definition scripted_call (w : Script) (_ : Call) : Script * result ModelResponse :=
  match w with
  | [] => ([], Raise (APIError (py "connection refused")))
  | r :: w' => (w', r)
  end.

Record Session : Type := {
  endpoint : World;
  sent : list Call;
  printed : list str
}.

Definition Run (A : Type) : Type := Session -> result A * Session.

Definition finish {A : Type} (a : A) : Run A := fun ss => (Return a, ss).

Definition and_then {A B : Type} (c : Run A) (k : A -> Run B) : Run B :=
  fun ss =>
    match c ss with
    | (Return a, ss') => k a ss'
    | (Raise e, ss') => (Raise e, ss')
    end.

Notation "x <~ c ;; k" := (and_then c (fun x => k))
  (at level 61, c at next level, right associativity).
Notation "c >>> k" := (and_then c (fun _ => k))
  (at level 61, right associativity).

(** [try: body / except Exception as e: handler e] *)
Definition try_run {A : Type} (body : Run A) (handler : exn -> Run A) : Run A :=
  fun ss =>
    match body ss with
    | (Return a, ss') => (Return a, ss')
    | (Raise e, ss') => handler e ss'
    end.

Definition send (call : Call) : Run ModelResponse :=
  fun ss =>
    let (w', r) := completion_call (endpoint ss) call in
    (r, {| endpoint := w'; sent := sent ss ++ [call]; printed := printed ss |}).

Definition say (line : str) : Run unit :=
  fun ss =>
    (Return tt,
     {| endpoint := endpoint ss; sent := sent ss;
        printed := printed ss ++ [line] |}).

Definition sql_system_msg : str :=
  py "Extract SQL queries from natural language. Return only valid SQL.".

Definition zero_shot_call (user_query : str) : Call :=
  {| call_model := model_gpt_oss_free;
     call_api_key := getenv key_name;
     call_messages :=
       [ {| role := py "system"; content := sql_system_msg |};
         {| role := py "user"; content := user_query |} ];
     call_temperature := None |}.

Definition zero_shot_approach (user_query : str) : Run (option str) :=
  response <~ send (zero_shot_call user_query) ;;
  fun ss => (first_content response, ss).

Definition few_shot_call (user_query : str) : Call :=
  {| call_model := model_gpt_oss_free;
     call_api_key := getenv key_name;
     call_messages :=
       [ {| role := py "system"; content := sql_system_msg |};
         {| role := py "user"; content := py "Show me all users from Texas" |};
         {| role := py "assistant";
            content := py "SELECT * FROM users WHERE state = 'TX';" |};
         {| role := py "user"; content := py "Count orders from last month" |};
         {| role := py "assistant";
            content := py "SELECT COUNT(" ++ py "*"
                         ++ py ") FROM orders WHERE date >= DATE_SUB(CURDATE(), INTERVAL 1 MONTH);" |};
         {| role := py "user"; content := py "Find users who joined this year" |};
         {| role := py "assistant";
            content := py "SELECT * FROM users WHERE YEAR(created_at) = YEAR(CURDATE());" |};
         {| role := py "user"; content := user_query |} ];
     call_temperature := None |}.

Definition few_shot_approach (user_query : str) : Run (option str) :=
  response <~ send (few_shot_call user_query) ;;
  fun ss => (first_content response, ss).

(** [sep.join(items)] *)
Fixpoint str_join (sep : str) (items : list str) : str :=
  match items with
  | [] => []
  | [x] => x
  | x :: rest => x ++ sep ++ str_join sep rest
  end.

(** One line of the schema description. *)
Definition schema_line (table : str) (columns : list str) : str :=
  py "- " ++ table ++ py ": " ++ str_join (py ", ") columns ++ nl.

(** [for table, columns in table_schema.items(): schema_info += ...] *)
Fixpoint schema_info_loop (schema_info : str)
  (items : list (str * list str)) : str :=
  match items with
  | [] => schema_info
  | (table, columns) :: rest =>
      schema_info_loop (schema_info ++ schema_line table columns) rest
  end.

Definition schema_info_of (table_schema : list (str * list str)) : str :=
  schema_info_loop (py "Available tables and columns:" ++ nl) table_schema.

Definition advanced_call (user_query : str)
  (table_schema : list (str * list str)) : Call :=
  {| call_model := model_gpt_oss_free;
     call_api_key := getenv key_name;
     call_messages :=
       [ {| role := py "system";
            content := py "You are a SQL expert. Generate queries based on the schema."
                         ++ nl ++ nl ++ schema_info_of table_schema |};
         {| role := py "user"; content := py "Show high-value customers" |};
         {| role := py "assistant";
            content := py "SELECT customer_id, name, total_spent FROM customers WHERE total_spent > 10000 ORDER BY total_spent DESC;" |};
         {| role := py "user";
            content := py "Find recent orders that are still processing" |};
         {| role := py "assistant";
            content := py "SELECT order_id, customer_id, created_at FROM orders WHERE status = 'processing' AND created_at >= DATE_SUB(NOW(), INTERVAL 7 DAY);" |};
         {| role := py "user"; content := user_query |} ];
     call_temperature := Some (2 # 10) |}.

Definition advanced_few_shot_with_context (user_query : str)
  (table_schema : list (str * list str)) : Run (option str) :=
  response <~ send (advanced_call user_query table_schema) ;;
  fun ss => (first_content response, ss).

Definition test_queries : list str :=
  [ py "Find customers who spent over 1000";
    py "Get products that are running low on inventory";
    py "Show me orders from the last week that haven't shipped";
    py "List employees who started this month" ].

Definition mock_schema : list (str * list str) :=
  [ (py "customers",
     [py "customer_id"; py "name"; py "email"; py "total_spent"; py "created_at"]);
    (py "products",
     [py "product_id"; py "name"; py "price"; py "inventory_count"; py "category"]);
    (py "orders",
     [py "order_id"; py "customer_id"; py "status"; py "total"; py "created_at";
      py "shipped_at"]);
    (py "employees",
     [py "employee_id"; py "name"; py "department"; py "start_date"; py "salary"]) ].

(** One [try]/[except Exception] of the comparison, with its prints. *)
Definition show_result (call : Run (option str)) : Run unit :=
  try_run
    (result <~ call ;; say (blue (str_of_optional result)))
    (fun e => say (py "Error: " ++ exn_str e)).

(** [for i, query in enumerate(test_queries, i): ...] of
    [compare_approaches]. *)
Fixpoint compare_loop (schema : list (str * list str)) (i : nat)
  (queries : list str) : Run unit :=
  match queries with
  | [] => finish tt
  | query :: rest =>
      say (py "Query " ++ str_of_nat i ++ py ": '" ++ query ++ py "'") >>>
      say (repeat 45%N 50) >>>
      say (py "Zero-shot result:") >>>
      show_result (zero_shot_approach query) >>>
      say (nl ++ py "Few-shot result:") >>>
      show_result (few_shot_approach query) >>>
      say (nl ++ py "Advanced few-shot with schema:") >>>
      show_result (advanced_few_shot_with_context query schema) >>>
      say (nl ++ repeat 61%N 70 ++ nl) >>>
      compare_loop schema (S i) rest
  end.

Definition compare_approaches : Run unit :=
  say (py "=== ZERO-SHOT vs FEW-SHOT COMPARISON ===" ++ nl) >>>
  compare_loop mock_schema 1 test_queries.

(** The three calls made for one query, in the order they are made. *)
Definition calls_for (schema : list (str * list str)) (query : str)
  : list Call :=
  [ zero_shot_call query; few_shot_call query; advanced_call query schema ].

(** *** What the further properties speak about *)

(** [m] never raises, and sends between [lo] and [hi] requests, whatever the
    state it starts in; it only adds to the requests sent and to the lines
    printed. *)
Definition runs_within (m : M unit) (lo hi : nat) : Prop :=
  forall st,
    fst (m st) = Return tt
    /\ exists new lines,
        calls (snd (m st)) = calls st ++ new
        /\ (lo <= List.length new <= hi)%nat
        /\ console (snd (m st)) = console st ++ lines.

(** [m] never raises and sends exactly the calls [cs], in that order,
    whatever the session it starts in. *)
Definition sends (m : Run unit) (cs : list Call) : Prop :=
  forall ss,
    fst (m ss) = Return tt /\ sent (snd (m ss)) = sent ss ++ cs.

(** The notes appended to the prompt before attempt [k]. *)
Definition notes_upto (k : nat) : str :=
  List.concat (map retry_note (seq 0 k)).

(** *** What the claims speak about *)

(** The text handed to [json.loads] for a response [text]. *)
Definition clean_response (text : str) : str := clean_fences (strip text).

(** An attempt ended in an exception that the [except] clause of the loop
    catches. *)
Definition is_retryable (r : result json) : bool :=
  match r with
  | Raise e => is_ValueError e
  | Return _ => false
  end.

(** The prompt of attempt [k] (counted from 0) when every attempt before it
    was caught and retried. *)
Fixpoint prompt_at (p0 : str) (k : nat) : str :=
  match k with
  | O => p0
  | S j => prompt_at p0 j ++ retry_note j
  end.

(** The state in which attempt [k] starts in that case. *)
Fixpoint state_at (output_schema : dict) (system_msg p0 : str) (st : State)
  (k : nat) : State :=
  match k with
  | O => st
  | S j =>
      snd (attempt_body output_schema system_msg (prompt_at p0 j)
             (state_at output_schema system_msg p0 st j))
  end.

(** The outcome of attempt [k] in that case. *)
Definition outcome_at (output_schema : dict) (system_msg p0 : str) (st : State)
  (k : nat) : result json :=
  fst (attempt_body output_schema system_msg (prompt_at p0 k)
         (state_at output_schema system_msg p0 st k)).

(** The requests of attempts [0 .. k-1] in that case. *)
Definition requests_upto (system_msg p0 : str) (k : nat) : list Request :=
  map (fun j => enforcer_request system_msg (prompt_at p0 j)) (seq 0 k).

(** The two responses of the scenarios: a fenced JSON object, and a text
    that is no JSON. *)
Definition quoted (s : string) : str := [34%N] ++ py s ++ [34%N].

Definition success_payload : str :=
  py "{" ++ quoted "status" ++ py ": " ++ quoted "success" ++ py ", "
     ++ quoted "message" ++ py ": " ++ quoted "ok" ++ py ", "
     ++ quoted "data" ++ py ": null}".

Definition fenced_success : str :=
  py "```json" ++ nl ++ success_payload ++ nl ++ py "```".

Definition success_mapping : json :=
  JObj [ (py "status", JStr (py "success"));
         (py "message", JStr (py "ok"));
         (py "data", JNull) ].

Definition not_json : str := py "not json at all".

Ltac split_tests :=
  repeat match goal with
         | |- context [(?a =? ?b)%N] => destruct (N.eqb_spec a b); [lia|]
         | |- context [(?a <=? ?b)%N] =>
             destruct (N.leb_spec a b); cbn [andb orb negb]; try lia
         | |- context [(?a <? ?b)%N] =>
             destruct (N.ltb_spec a b); cbn [andb orb negb]; try lia
         end;
  cbn [andb orb negb]; try reflexivity; try lia.

Ltac run_monad :=
  unfold bind, call_completion, lift, raise, ret, print, try_except in *;
  cbn [fst snd world calls console] in *.

(** ** Strings *)

Lemma str_eqb_eq (a b : str) : str_eqb a b = true <-> a = b.
Proof.
  unfold str_eqb. destruct (list_eq_dec N.eq_dec a b); split; congruence.
Qed.

Lemma startswith_app (p s : str) : startswith (p ++ s) p = true.
Proof.
  induction p as [|a p IH]; simpl; [reflexivity|].
  now rewrite N.eqb_refl, IH.
Qed.

Lemma startswith_spec (s p : str) :
  startswith s p = true <-> exists t, s = p ++ t.
Proof.
  split.
  - revert s. induction p as [|a p IH]; intros s H.
    + now exists s.
    + destruct s as [|c s]; simpl in H; [discriminate|].
      apply andb_true_iff in H as [Hc Hs]. apply N.eqb_eq in Hc. subst c.
      destruct (IH _ Hs) as [t ->]. now exists t.
  - intros [t ->]. apply startswith_app.
Qed.

Lemma contains_startswith (s p : str) :
  startswith s p = true -> contains s p = true.
Proof. intros H. destruct s; simpl; now rewrite H. Qed.

Lemma contains_spec (s p : str) :
  contains s p = true <-> exists a b, s = a ++ p ++ b.
Proof.
  split.
  - induction s as [|c s IH]; simpl; intros H.
    + rewrite orb_false_r in H. apply startswith_spec in H as [t Ht].
      exists [], t. exact Ht.
    + apply orb_true_iff in H as [H|H].
      * apply startswith_spec in H as [t Ht]. exists [], t. exact Ht.
      * destruct (IH H) as (a & b & ->). now exists (c :: a), b.
  - intros (a & b & ->). induction a as [|c a IH]; simpl.
    + apply contains_startswith, startswith_app.
    + rewrite IH. apply orb_true_r.
Qed.

Lemma lstrip_suffix (s : str) : exists a, s = a ++ lstrip s.
Proof.
  induction s as [|c s [a IH]]; simpl.
  - now exists [].
  - destruct (isspace c).
    + exists (c :: a). simpl. now rewrite <- IH.
    + now exists [].
Qed.

Lemma rstrip_prefix (s : str) : exists b, s = rstrip s ++ b.
Proof.
  unfold rstrip. destruct (lstrip_suffix (rev s)) as [a Ha].
  exists (rev a). rewrite <- rev_app_distr, <- Ha. now rewrite rev_involutive.
Qed.

Lemma strip_infix (s : str) : exists a b, s = a ++ strip s ++ b.
Proof.
  unfold strip. destruct (lstrip_suffix s) as [a Ha].
  destruct (rstrip_prefix (lstrip s)) as [b Hb].
  exists a, b. now rewrite <- Hb.
Qed.

Lemma contains_strip (s p : str) :
  contains (strip s) p = true -> contains s p = true.
Proof.
  intros H. apply contains_spec in H as (a & b & E).
  destruct (strip_infix s) as (a' & b' & E').
  apply contains_spec. exists (a' ++ a), (b ++ b').
  rewrite E' at 1. rewrite E. now rewrite <- !app_assoc.
Qed.

(** ** [json.loads] on a few texts *)

Example loads_nested :
  json_loads (py "[1, -2, {}, [true, null], 3.5e+7]")
  = Some (JArr [JInt 1; JInt (-2); JObj []; JArr [JBool true; JNull];
                JFloat (py "3.5e+7")]).
Proof. reflexivity. Qed.

Example loads_duplicate_key :
  json_loads (py "{" ++ quoted "a" ++ py ": 1, " ++ quoted "b" ++ py ": 2, "
                ++ quoted "a" ++ py ": 3}")
  = Some (JObj [(py "a", JInt 3); (py "b", JInt 2)]).
Proof. reflexivity. Qed.

Example loads_escapes :
  json_loads (quoted "a\n\u0041\ud83d\ude00")
  = Some (JStr [97; 10; 65; 128512]%N).
Proof. reflexivity. Qed.

Example loads_rejects :
  map json_loads
    [ not_json; []; py "[1,]"; py "{,}"; py "01"; py "1."; py "[1 2]";
      py "[1"; py "nul"; py "{1: 2}"; py "1 2"; py "'a'" ]
  = repeat None 12.
Proof. reflexivity. Qed.

(** ** [replace] on fences *)

Lemma fence_eq : fence = [backtick; backtick; backtick].
Proof. reflexivity. Qed.

Lemma fence_json_eq : fence_json = fence ++ py "json".
Proof. reflexivity. Qed.

(** One step of the scan, as Python's loop makes it. *)
Lemma replace_scan_match (old new s : str) :
  old <> [] ->
  replace_scan old new 0 (old ++ s) = new ++ replace_scan old new 0 s.
Proof.
  intros Hold. destruct old as [|a old]; [congruence|]. clear Hold.
  cbn [app replace_scan]. change (a :: old ++ s) with ((a :: old) ++ s).
  rewrite startswith_app. f_equal.
  cbn [List.length Nat.sub]. rewrite Nat.sub_0_r.
  generalize (a :: old) as pat.
  induction old as [|b old IH]; intros pat; cbn [app List.length].
  - reflexivity.
  - cbn [replace_scan]. apply IH.
Qed.

Lemma replace_scan_miss (old new : str) (c : char) (s : str) :
  startswith (c :: s) old = false ->
  replace_scan old new 0 (c :: s) = c :: replace_scan old new 0 s.
Proof. intros H. cbn [replace_scan]. now rewrite H. Qed.

(** Characters that differ from the first one of [old] are copied. *)
Lemma replace_scan_copy (a : char) (old new body rest : str) :
  Forall (fun c => c <> a) body ->
  replace_scan (a :: old) new 0 (body ++ rest)
  = body ++ replace_scan (a :: old) new 0 rest.
Proof.
  induction 1 as [|c body Hc _ IH]; [reflexivity|].
  cbn [app]. rewrite replace_scan_miss.
  - now rewrite IH.
  - cbn [startswith]. apply N.eqb_neq in Hc. now rewrite Hc.
Qed.

Lemma scan_fence_head1 (s : str) :
  startswith (replace_scan fence [] 0 s) [backtick] = true ->
  startswith s [backtick] = true.
Proof.
  destruct s as [|c s]; [discriminate|].
  cbn [replace_scan]. destruct (startswith (c :: s) fence) eqn:E.
  - intros _. rewrite fence_eq in E. cbn [startswith] in E |- *.
    apply andb_true_iff in E as [-> _]. reflexivity.
  - cbn [startswith]. rewrite !andb_true_r. trivial.
Qed.

Lemma scan_fence_head2 (s : str) :
  startswith (replace_scan fence [] 0 s) [backtick; backtick] = true ->
  startswith s [backtick; backtick] = true.
Proof.
  destruct s as [|c s]; [discriminate|].
  cbn [replace_scan]. destruct (startswith (c :: s) fence) eqn:E.
  - intros _. rewrite fence_eq in E. cbn [startswith] in E |- *.
    apply andb_true_iff in E as [-> E]. destruct s as [|d s]; [discriminate|].
    apply andb_true_iff in E as [-> _]. reflexivity.
  - intros H. change (startswith (c :: replace_scan fence [] 0 s)
                        [backtick; backtick])
      with ((c =? backtick)%N
            && startswith (replace_scan fence [] 0 s) [backtick]) in H.
    apply andb_true_iff in H as [Hc H]. apply scan_fence_head1 in H.
    change (startswith (c :: s) [backtick; backtick])
      with ((c =? backtick)%N && startswith s [backtick]).
    now rewrite Hc, H.
Qed.

(** No fence is left once the fences are replaced by the empty string,
    whatever the text. *)
Lemma replace_scan_no_fence (s : str) (skip : nat) :
  contains (replace_scan fence [] skip s) fence = false.
Proof.
  revert skip. induction s as [|c s IH]; intros skip.
  - reflexivity.
  - cbn [replace_scan]. destruct skip as [|k]; [|apply IH].
    destruct (startswith (c :: s) fence) eqn:E.
    + cbn [app]. apply IH.
    + cbn [contains]. rewrite IH, orb_false_r.
      destruct (startswith (c :: replace_scan fence [] 0 s) fence) eqn:F;
        [|reflexivity].
      rewrite fence_eq in F, E.
      change (startswith (c :: replace_scan [backtick; backtick; backtick] [] 0 s)
                [backtick; backtick; backtick])
        with ((c =? backtick)%N
              && startswith (replace_scan fence [] 0 s) [backtick; backtick]) in F.
      apply andb_true_iff in F as [Hc F]. apply scan_fence_head2 in F.
      change (startswith (c :: s) [backtick; backtick; backtick])
        with ((c =? backtick)%N && startswith s [backtick; backtick]) in E.
      rewrite Hc, F in E. discriminate.
Qed.

Lemma replace_no_fence (s : str) : contains (replace s fence []) fence = false.
Proof. apply replace_scan_no_fence. Qed.

(** A text without fence has no tagged fence either. *)
Lemma no_fence_no_fence_json (s : str) :
  contains s fence = false -> contains s fence_json = false.
Proof.
  intros H. destruct (contains s fence_json) eqn:E; [|reflexivity].
  apply contains_spec in E as (a & b & ->).
  rewrite <- H. symmetry. apply contains_spec.
  exists a, (py "json" ++ b). rewrite fence_json_eq. now rewrite <- !app_assoc.
Qed.

Lemma strip_no_fence (s p : str) :
  contains s p = false -> contains (strip s) p = false.
Proof.
  intros H. destruct (contains (strip s) p) eqn:E; [|reflexivity].
  apply contains_strip in E. congruence.
Qed.

Lemma startswith_fence_json_fence (s : str) :
  startswith s fence_json = true -> startswith s fence = true.
Proof.
  intros H. apply startswith_spec in H as [t ->].
  apply startswith_spec. exists (py "json" ++ t).
  rewrite fence_json_eq. now rewrite <- app_assoc.
Qed.

Lemma clean_fences_tagged (text : str) :
  startswith text fence_json = true ->
  clean_fences text = strip (replace (replace text fence_json []) fence []).
Proof. intros H. unfold clean_fences. now rewrite H. Qed.

Lemma clean_fences_untagged (text : str) :
  startswith text fence_json = false -> startswith text fence = true ->
  clean_fences text = strip (replace text fence []).
Proof. intros H1 H2. unfold clean_fences. now rewrite H1, H2. Qed.

Lemma clean_fences_unfenced (text : str) :
  startswith text fence = false -> clean_fences text = text.
Proof.
  intros H. unfold clean_fences. rewrite H.
  destruct (startswith text fence_json) eqn:E; [|reflexivity].
  apply startswith_fence_json_fence in E. congruence.
Qed.

Lemma clean_fences_no_fence (text : str) :
  startswith text fence = true -> contains (clean_fences text) fence = false.
Proof.
  intros H. destruct (startswith text fence_json) eqn:E.
  - rewrite (clean_fences_tagged _ E). apply strip_no_fence, replace_no_fence.
  - rewrite (clean_fences_untagged _ E H).
    apply strip_no_fence, replace_no_fence.
Qed.

Lemma replace_fence_payload (body : str) :
  Forall (fun c => c <> backtick) body ->
  replace (body ++ fence) fence [] = body.
Proof.
  intros Hb. change (replace (body ++ fence) fence [])
    with (replace_scan (backtick :: [backtick; backtick]) [] 0 (body ++ fence)).
  rewrite replace_scan_copy by exact Hb.
  change (replace_scan (backtick :: [backtick; backtick]) [] 0 fence)
    with (@nil char).
  apply app_nil_r.
Qed.

Lemma replace_fence_wrapped (body : str) :
  Forall (fun c => c <> backtick) body ->
  replace (fence ++ body ++ fence) fence [] = body.
Proof.
  intros Hb. change (replace (fence ++ body ++ fence) fence [])
    with (replace_scan fence [] 0 (fence ++ body ++ fence)).
  rewrite replace_scan_match by discriminate.
  now apply replace_fence_payload.
Qed.

Lemma replace_fence_json_wrapped (body : str) :
  Forall (fun c => c <> backtick) body ->
  replace (fence_json ++ body ++ fence) fence_json [] = body ++ fence.
Proof.
  intros Hb. change (replace (fence_json ++ body ++ fence) fence_json [])
    with (replace_scan fence_json [] 0 (fence_json ++ body ++ fence)).
  rewrite replace_scan_match by discriminate. cbn [app].
  change fence_json with (backtick :: [backtick; backtick] ++ py "json").
  now rewrite replace_scan_copy by exact Hb.
Qed.

(** ** The fence cleaning *)

(** C9: the cleaning is a global replacement.  A text that starts with the
    tagged marker loses every occurrence of the tagged marker and then of the
    bare marker, so none is left anywhere; a text that starts with the bare
    marker only loses every occurrence of it; a text that does not start with
    a marker is returned as it is, trailing marker included.  The two
    instances show a marker inside the text removed, and a trailing one
    kept. *)
Theorem clean_fences_global_replace :
  (forall text,
      (startswith text fence_json = true ->
       clean_fences text = strip (replace (replace text fence_json []) fence [])
       /\ contains (clean_fences text) fence = false
       /\ contains (clean_fences text) fence_json = false)
      /\ (startswith text fence_json = false -> startswith text fence = true ->
          clean_fences text = strip (replace text fence [])
          /\ contains (clean_fences text) fence = false)
      /\ (startswith text fence = false -> clean_fences text = text))
  /\ clean_fences (py "```json{}```[]```") = py "{}[]"
  /\ clean_fences (py "```[1,```2]```") = py "[1,2]"
  /\ clean_fences (py "{}```") = py "{}```".
Proof.
  split; [|repeat split; reflexivity].
  intros text. split; [|split].
  - intros H. pose proof (startswith_fence_json_fence _ H) as H'.
    pose proof (clean_fences_no_fence _ H') as Hn.
    split; [now apply clean_fences_tagged|].
    split; [exact Hn|now apply no_fence_no_fence_json].
  - intros H1 H2. split; [now apply clean_fences_untagged|].
    now apply clean_fences_no_fence.
  - apply clean_fences_unfenced.
Qed.

(** C4: when the response, stripped of surrounding white space, starts with
    a fence marker, no marker is left in the text handed to the parser,
    neither the leading nor the trailing one; and a payload without
    backticks between a tagged or an untagged opening marker and a closing
    marker comes out as the payload alone, stripped. *)
Theorem fence_stripping_removes_markers (text : str) :
  startswith (strip text) fence = true ->
  contains (clean_response text) fence = false
  /\ forall body, Forall (fun c => c <> backtick) body ->
       (strip text = fence_json ++ body ++ fence ->
        clean_response text = strip body)
       /\ (strip text = fence ++ body ++ fence ->
           startswith (strip text) fence_json = false ->
           clean_response text = strip body).
Proof.
  intros Hf. unfold clean_response. split; [now apply clean_fences_no_fence|].
  intros body Hb. split.
  - intros E. rewrite E. rewrite clean_fences_tagged by apply startswith_app.
    rewrite replace_fence_json_wrapped by exact Hb.
    now rewrite replace_fence_payload by exact Hb.
  - intros E Hj. rewrite E in Hj |- *.
    rewrite clean_fences_untagged by (exact Hj || apply startswith_app).
    now rewrite replace_fence_wrapped by exact Hb.
Qed.

(** ** The shallow validator *)

Lemma dict_mem_In (d : dict) (key : str) :
  dict_mem d key = true <-> In key (dict_keys d).
Proof.
  unfold dict_mem, dict_keys. rewrite existsb_exists, in_map_iff.
  split; intros [kv [H1 H2]]; exists kv.
  - apply str_eqb_eq in H2. now split.
  - split; [exact H2|]. now apply str_eqb_eq.
Qed.

Lemma dict_mem_keys (d d' : dict) (key : str) :
  dict_keys d = dict_keys d' -> dict_mem d key = dict_mem d' key.
Proof.
  intros E. apply eq_true_iff_eq. now rewrite !dict_mem_In, E.
Qed.

(** C5: [validate_schema] is true exactly when the value is a mapping that
    holds every key of the schema; so it is false for every value that is
    not a mapping and whenever a key of the schema is absent.  The answer
    depends on the keys alone: neither the values stored in the mapping nor
    those of the schema change it. *)
Theorem validate_schema_keys_only (data : json) (schema : dict) :
  (validate_schema data schema = true <->
   exists members,
     data = JObj members
     /\ forall key, In key (dict_keys schema) -> In key (dict_keys members))
  /\ (forall members members',
        dict_keys members = dict_keys members' ->
        validate_schema (JObj members) schema
        = validate_schema (JObj members') schema)
  /\ (forall schema',
        dict_keys schema = dict_keys schema' ->
        validate_schema data schema = validate_schema data schema').
Proof.
  split; [|split].
  - split.
    + destruct data; try discriminate. cbn [validate_schema]. intros H.
      exists members. split; [reflexivity|]. intros key Hk.
      rewrite forallb_forall in H. now apply dict_mem_In, H.
    + intros (members & -> & H). cbn [validate_schema].
      apply forallb_forall. intros key Hk. now apply dict_mem_In, H.
  - intros members members' E. cbn [validate_schema].
    apply eq_true_iff_eq. rewrite !forallb_forall.
    split; intros H key Hk; specialize (H key Hk).
    + now rewrite <- (@dict_mem_keys members members' key E).
    + now rewrite (@dict_mem_keys members members' key E).
  - intros schema' E. destruct data; try reflexivity.
    cbn [validate_schema]. now rewrite E.
Qed.

(** ** One attempt of the enforcer *)

(** An attempt sends exactly one request and prints nothing. *)
Lemma attempt_body_state (output_schema : dict) (system_msg p : str)
  (st : State) :
  snd (attempt_body output_schema system_msg p st)
  = {| world := fst (completion (world st) (enforcer_request system_msg p));
       calls := calls st ++ [enforcer_request system_msg p];
       console := console st |}.
Proof.
  unfold attempt_body. run_monad.
  destruct (completion (world st) (enforcer_request system_msg p)) as [w' [resp|e]];
    [|reflexivity].
  destruct (first_content resp) as [[text|]|e]; try reflexivity.
  destruct (loads (clean_fences (strip text))) as [parsed|e]; [|reflexivity].
  destruct (validate_schema parsed output_schema); reflexivity.
Qed.

(** The endpoint raises: so does the attempt, with the same exception. *)
Lemma attempt_body_raise (output_schema : dict) (system_msg p : str)
  (st : State) (w' : World) (e : exn) :
  completion (world st) (enforcer_request system_msg p) = (w', Raise e) ->
  fst (attempt_body output_schema system_msg p st) = Raise e.
Proof. intros H. unfold attempt_body. run_monad. now rewrite H. Qed.

(** The endpoint answers with a text: the attempt is decided by the parse
    of the cleaned text and by the key check. *)
Lemma attempt_body_text (output_schema : dict) (system_msg p : str)
  (st : State) (w' : World) (text : str) :
  completion (world st) (enforcer_request system_msg p)
  = (w', Return (text_response text)) ->
  fst (attempt_body output_schema system_msg p st)
  = match json_loads (clean_response text) with
    | None => Raise (JSONDecodeError (decode_msg (clean_response text)))
    | Some parsed =>
        if validate_schema parsed output_schema
        then Return parsed
        else Raise (ValueError (py "Schema validation failed"))
    end.
Proof.
  intros H. unfold attempt_body, clean_response, loads. run_monad.
  rewrite H. cbn [text_response first_content choices message message_content].
  destruct (json_loads (clean_fences (strip text))) as [parsed|]; [|reflexivity].
  destruct (validate_schema parsed output_schema); reflexivity.
Qed.

(** An attempt returns only mappings that pass the key check. *)
Lemma attempt_body_return (output_schema : dict) (system_msg p : str)
  (st : State) (parsed : json) :
  fst (attempt_body output_schema system_msg p st) = Return parsed ->
  validate_schema parsed output_schema = true.
Proof.
  unfold attempt_body. run_monad.
  destruct (completion (world st) (enforcer_request system_msg p)) as [w' [resp|e]];
    [|discriminate].
  destruct (first_content resp) as [[text|]|e]; try discriminate.
  destruct (loads (clean_fences (strip text))) as [v|e]; [|discriminate].
  destruct (validate_schema v output_schema) eqn:E; [|discriminate].
  cbn. intros [= <-]. exact E.
Qed.

Lemma validate_schema_mapping (data : json) (schema : dict) :
  validate_schema data schema = true -> exists members, data = JObj members.
Proof. destruct data; try discriminate. intros _. now exists members. Qed.

Lemma requests_upto_S (system_msg p0 : str) (k : nat) :
  requests_upto system_msg p0 (S k)
  = requests_upto system_msg p0 k ++ [enforcer_request system_msg (prompt_at p0 k)].
Proof. unfold requests_upto. now rewrite seq_S, map_app. Qed.

Lemma requests_upto_length (system_msg p0 : str) (k : nat) :
  List.length (requests_upto system_msg p0 k) = k.
Proof. unfold requests_upto. now rewrite length_map, length_seq. Qed.

Lemma state_at_calls (output_schema : dict) (system_msg p0 : str) (st : State)
  (k : nat) :
  calls (state_at output_schema system_msg p0 st k)
  = calls st ++ requests_upto system_msg p0 k
  /\ console (state_at output_schema system_msg p0 st k) = console st.
Proof.
  induction k as [|k [IHc IHp]]; cbn [state_at].
  - unfold requests_upto. cbn. now rewrite app_nil_r.
  - rewrite attempt_body_state. cbn [calls console].
    rewrite IHc, requests_upto_S, app_assoc. now split.
Qed.

(** ** The retry loop *)

(** The loop sends at most one request per attempt left, the first of them
    with the prompt it was entered with, and prints nothing. *)
Lemma retry_loop_calls (output_schema : dict) (max_retries : Z)
  (system_msg : str) (attempts : list nat) :
  forall (p : str) (st : State),
  exists new,
    calls (snd (retry_loop output_schema max_retries system_msg attempts p st))
    = calls st ++ new
    /\ (List.length new <= List.length attempts)%nat
    /\ (attempts <> [] -> exists more, new = enforcer_request system_msg p :: more)
    /\ console (snd (retry_loop output_schema max_retries system_msg attempts p st))
       = console st.
Proof.
  induction attempts as [|attempt rest IH]; intros p st.
  - exists []. cbn. rewrite app_nil_r. repeat split; [lia|congruence].
  - cbn [retry_loop].
    pose proof (attempt_body_state output_schema system_msg p st) as Hs.
    destruct (attempt_body output_schema system_msg p st) as [[parsed|e] st'];
      cbn [snd] in Hs; subst st'.
    + exists [enforcer_request system_msg p]. cbn.
      repeat split; [lia|]. intros _. now exists [].
    + destruct (is_ValueError e).
      * destruct (Z.of_nat attempt =? max_retries - 1)%Z.
        -- exists [enforcer_request system_msg p]. cbn.
           repeat split; [lia|]. intros _. now exists [].
        -- match goal with
           | |- context [retry_loop _ _ _ rest ?q ?s] =>
               destruct (IH q s) as (new & Hc & Hl & _ & Hp)
           end.
           exists (enforcer_request system_msg p :: new).
           rewrite Hc, Hp. cbn [calls console List.length].
           rewrite <- app_assoc. cbn [app].
           repeat split; [lia|]. intros _. now exists new.
      * exists [enforcer_request system_msg p]. cbn.
        repeat split; [lia|]. intros _. now exists [].
Qed.

(** While the attempts fail with a caught exception and are not the last
    one, the loop goes on with the amended prompt. *)
Lemma retry_loop_after_failures (output_schema : dict) (max_retries : Z)
  (system_msg p0 : str) (st : State) (n k : nat) :
  Z.of_nat n = max_retries ->
  (k < n)%nat ->
  (forall j, (j < k)%nat ->
             is_retryable (outcome_at output_schema system_msg p0 st j) = true) ->
  retry_loop output_schema max_retries system_msg (seq 0 n) p0 st
  = retry_loop output_schema max_retries system_msg (seq k (n - k))
      (prompt_at p0 k) (state_at output_schema system_msg p0 st k).
Proof.
  intros Hn. induction k as [|k IH]; intros Hk Hfail.
  - now rewrite Nat.sub_0_r.
  - rewrite IH by (lia || (intros j Hj; apply Hfail; lia)).
    replace (n - k)%nat with (S (n - S k)) by lia.
    cbn [seq retry_loop state_at prompt_at].
    specialize (Hfail k (Nat.lt_succ_diag_r k)). unfold outcome_at in Hfail.
    destruct (attempt_body output_schema system_msg (prompt_at p0 k)
                (state_at output_schema system_msg p0 st k)) as [[parsed|e] st'];
      cbn [fst snd is_retryable] in Hfail |- *; [discriminate|].
    rewrite Hfail.
    destruct (Z.eqb_spec (Z.of_nat k) (max_retries - 1)) as [E|_]; [lia|].
    reflexivity.
Qed.

(** A response that does not parse, or parses to a value that fails the key
    check, is a failure that the loop catches. *)
Lemma failed_text_is_retryable (output_schema : dict) (system_msg p : str)
  (st : State) (w' : World) (text : str) :
  completion (world st) (enforcer_request system_msg p)
  = (w', Return (text_response text)) ->
  (json_loads (clean_response text) = None
   \/ exists parsed, json_loads (clean_response text) = Some parsed
                     /\ validate_schema parsed output_schema = false) ->
  is_retryable (fst (attempt_body output_schema system_msg p st)) = true.
Proof.
  intros Hc H. rewrite (@attempt_body_text output_schema system_msg p st w' text Hc).
  destruct H as [-> | (parsed & -> & ->)]; reflexivity.
Qed.

Lemma enforcer_without_attempts_eq (output_schema : dict) (max_retries : Z)
  (prompt : str) (system_message : option str) (st : State) :
  (max_retries <= 0)%Z ->
  enforce_json_output output_schema max_retries prompt system_message st
  = (Return JNull, st).
Proof.
  intros H. unfold enforce_json_output, range.
  replace (Z.to_nat max_retries) with 0%nat by lia. reflexivity.
Qed.

(** X7: with a ceiling of zero or less the loop body never runs: no request
    is sent, nothing is raised and the function returns [None]. *)
Lemma enforcer_without_attempts (output_schema : dict) (max_retries : Z)
  (prompt : str) (system_message : option str) (st : State) :
  (max_retries <= 0)%Z ->
  enforce_json_output output_schema max_retries prompt system_message st
  = (Return JNull, st).
Proof.
  intros H. unfold enforce_json_output, range.
  replace (Z.to_nat max_retries) with 0%nat by lia. reflexivity.
Qed.

Lemma requests_upto_nth (system_msg p0 : str) (n k : nat) :
  (k < n)%nat ->
  nth_error (requests_upto system_msg p0 n) k
  = Some (enforcer_request system_msg (prompt_at p0 k)).
Proof.
  intros Hk. unfold requests_upto. rewrite nth_error_map, nth_error_seq.
  destruct (Nat.ltb_spec k n) as [_|F]; [reflexivity|lia].
Qed.

(** The corrective note is not empty, so an amended prompt is longer than
    the prompt it amends. *)
Lemma retry_note_length (attempt : nat) :
  (0 < List.length (retry_note attempt))%nat.
Proof. unfold retry_note. cbn [nl app List.length]. lia. Qed.

(** The run of the enforcer, seen from attempt [k] when the attempts before
    it were caught and retried. *)
Lemma enforce_at (output_schema : dict) (max_retries : Z) (prompt : str)
  (system_message : option str) (st : State) (k : nat) :
  let system_msg := or_default system_message default_system_msg in
  let p0 := initial_json_prompt output_schema prompt in
  (k < Z.to_nat max_retries)%nat ->
  (forall j, (j < k)%nat ->
             is_retryable (outcome_at output_schema system_msg p0 st j) = true) ->
  enforce_json_output output_schema max_retries prompt system_message st
  = match attempt_body output_schema system_msg (prompt_at p0 k)
            (state_at output_schema system_msg p0 st k) with
    | (Return parsed, st') => (Return parsed, st')
    | (Raise e, st') =>
        if is_ValueError e then
          if (Z.of_nat k =? max_retries - 1)%Z
          then (Raise (Exception_ (failure_msg max_retries e) e), st')
          else retry_loop output_schema max_retries system_msg
                 (seq (S k) (Z.to_nat max_retries - S k))
                 (prompt_at p0 (S k)) st'
        else (Raise e, st')
    end.
Proof.
  intros system_msg p0 Hk Hfail. unfold enforce_json_output, range.
  fold system_msg p0.
  rewrite (@retry_loop_after_failures output_schema max_retries system_msg p0 st
             (Z.to_nat max_retries) k) by (lia || assumption).
  replace (Z.to_nat max_retries - k)%nat
    with (S (Z.to_nat max_retries - S k)) by lia.
  reflexivity.
Qed.

Lemma state_at_S (output_schema : dict) (system_msg p0 : str) (st : State)
  (k : nat) :
  snd (attempt_body output_schema system_msg (prompt_at p0 k)
         (state_at output_schema system_msg p0 st k))
  = {| world := fst (completion
                       (world (state_at output_schema system_msg p0 st k))
                       (enforcer_request system_msg (prompt_at p0 k)));
       calls := calls st ++ requests_upto system_msg p0 (S k);
       console := console st |}.
Proof.
  rewrite attempt_body_state.
  destruct (state_at_calls output_schema system_msg p0 st k) as [-> ->].
  now rewrite requests_upto_S, app_assoc.
Qed.

(** ** The enforcer *)

(** C1: the enforcer made by [create_json_enforcer] sends at most
    [max_retries] completion requests, whatever the schema, the prompt and
    the endpoint; and when attempt [k] is the first whose response parses and
    passes the key check (those before it having failed to), the enforcer
    returns the mapping parsed at attempt [k], having sent the [k + 1]
    requests of attempts [0 .. k] and no other. *)
Theorem enforcer_bounded_and_returns_first_success
  (output_schema : dict) (max_retries : Z) (prompt : str)
  (system_message : option str) (st : State) :
  let system_msg := or_default system_message default_system_msg in
  let p0 := initial_json_prompt output_schema prompt in
  let run := create_json_enforcer output_schema max_retries prompt
               system_message st in
  (exists new,
      calls (snd run) = calls st ++ new
      /\ (List.length new <= Z.to_nat max_retries)%nat
      /\ (0 <= max_retries -> Z.of_nat (List.length new) <= max_retries)%Z)
  /\ forall (k : nat) (parsed : json),
      (k < Z.to_nat max_retries)%nat ->
      (forall j, (j < k)%nat ->
                 is_retryable (outcome_at output_schema system_msg p0 st j) = true) ->
      outcome_at output_schema system_msg p0 st k = Return parsed ->
      fst run = Return parsed
      /\ calls (snd run) = calls st ++ requests_upto system_msg p0 (S k)
      /\ List.length (requests_upto system_msg p0 (S k)) = S k
      /\ validate_schema parsed output_schema = true
      /\ exists members, parsed = JObj members.
Proof.
  intros system_msg p0 run. split.
  - subst run. unfold create_json_enforcer, enforce_json_output.
    destruct (retry_loop_calls output_schema max_retries
                (or_default system_message default_system_msg)
                (range max_retries)
                (initial_json_prompt output_schema prompt) st)
      as (new & Hc & Hl & _).
    unfold range in Hl. rewrite length_seq in Hl.
    exists new. repeat split; [exact Hc|exact Hl|lia].
  - intros k parsed Hk Hfail Hok. subst run. unfold create_json_enforcer.
    rewrite (@enforce_at output_schema max_retries prompt system_message st k Hk Hfail).
    fold system_msg p0. unfold outcome_at in Hok.
    pose proof (state_at_S output_schema system_msg p0 st k) as Hs.
    pose proof (@attempt_body_return output_schema system_msg (prompt_at p0 k)
                  (state_at output_schema system_msg p0 st k) parsed Hok) as Hv.
    destruct (attempt_body output_schema system_msg (prompt_at p0 k)
                (state_at output_schema system_msg p0 st k)) as [r st'].
    cbn [fst snd] in *. subst r. cbn [fst snd]. rewrite Hs. cbn [calls].
    repeat split; try assumption.
    + apply requests_upto_length.
    + now apply validate_schema_mapping with (schema := output_schema).
Qed.

(** C2: with a ceiling of at least one attempt, when every attempt fails to
    parse or fails the key check, the enforcer raises [Exception], chained to
    the failure of the last attempt and with the message that names the
    ceiling and that failure, after exactly [max_retries] requests.  The
    first request carries the system message and, as user message, the
    initial prompt; each failed attempt that is not the last is followed by
    one request whose user message is the user message of the failed attempt
    followed by two newlines and the note
    [ATTEMPT k+2: Previous attempt failed. Return ONLY valid JSON.], so it
    is longer.  So it is when the endpoint answers [not json at all] every
    time. *)
Theorem enforcer_raises_after_ceiling
  (output_schema : dict) (max_retries : Z) (prompt : str)
  (system_message : option str) (st : State) :
  let system_msg := or_default system_message default_system_msg in
  let p0 := initial_json_prompt output_schema prompt in
  let n := Z.to_nat max_retries in
  let run := create_json_enforcer output_schema max_retries prompt
               system_message st in
  (0 < max_retries)%Z ->
  ((forall k, (k < n)%nat ->
              is_retryable (outcome_at output_schema system_msg p0 st k) = true) ->
   exists e,
     outcome_at output_schema system_msg p0 st (n - 1) = Raise e
     /\ is_ValueError e = true
     /\ fst run = Raise (Exception_ (failure_msg max_retries e) e)
     /\ calls (snd run) = calls st ++ requests_upto system_msg p0 n
     /\ List.length (requests_upto system_msg p0 n) = n
     /\ (forall k, (S k < n)%nat ->
          nth_error (requests_upto system_msg p0 n) (S k)
          = Some (enforcer_request system_msg (prompt_at p0 k ++ retry_note k)))
     /\ failure_msg max_retries e
        = py "Failed to get valid JSON after " ++ str_of_Z max_retries
            ++ py " attempts: " ++ exn_str e
     /\ (exists first,
           nth_error (requests_upto system_msg p0 n) 0 = Some first
           /\ messages first
              = [ {| role := py "system"; content := system_msg |};
                  {| role := py "user"; content := p0 |} ])
     /\ forall k, (S k < n)%nat ->
          exists failed amended user_prompt,
            nth_error (requests_upto system_msg p0 n) k = Some failed
            /\ nth_error (requests_upto system_msg p0 n) (S k) = Some amended
            /\ messages failed
               = [ {| role := py "system"; content := system_msg |};
                   {| role := py "user"; content := user_prompt |} ]
            /\ messages amended
               = [ {| role := py "system"; content := system_msg |};
                   {| role := py "user";
                      content :=
                        user_prompt ++ nl ++ nl ++ py "ATTEMPT "
                          ++ str_of_nat (k + 2)
                          ++ py ": Previous attempt failed. Return ONLY valid JSON." |} ]
            /\ (List.length user_prompt
                 < List.length
                     (user_prompt ++ nl ++ nl ++ py "ATTEMPT "
                        ++ str_of_nat (k + 2)
                        ++ py ": Previous attempt failed. Return ONLY valid JSON."))%nat)
  /\ ((forall w req, snd (completion w req) = Return (text_response not_json)) ->
      let e := JSONDecodeError (decode_msg not_json) in
      fst run = Raise (Exception_ (failure_msg max_retries e) e)
      /\ calls (snd run) = calls st ++ requests_upto system_msg p0 n).
Proof.
  intros system_msg p0 n run Hpos.
  assert (Hall : (forall k, (k < n)%nat ->
              is_retryable (outcome_at output_schema system_msg p0 st k) = true) ->
     exists e,
       outcome_at output_schema system_msg p0 st (n - 1) = Raise e
       /\ is_ValueError e = true
       /\ fst run = Raise (Exception_ (failure_msg max_retries e) e)
       /\ calls (snd run) = calls st ++ requests_upto system_msg p0 n).
  { intros Hfail. subst run. unfold create_json_enforcer.
    assert (Hk : (n - 1 < Z.to_nat max_retries)%nat) by (subst n; lia).
    rewrite (@enforce_at output_schema max_retries prompt system_message st
               (n - 1) Hk) by (intros j Hj; apply Hfail; lia).
    fold system_msg p0.
    pose proof (Hfail (n - 1)%nat Hk) as Hlast. unfold outcome_at in Hlast |- *.
    pose proof (state_at_S output_schema system_msg p0 st (n - 1)) as Hs.
    destruct (attempt_body output_schema system_msg (prompt_at p0 (n - 1))
                (state_at output_schema system_msg p0 st (n - 1)))
      as [[parsed|e] st']; cbn [fst snd is_retryable] in *; [discriminate|].
    exists e. rewrite Hlast.
    destruct (Z.eqb_spec (Z.of_nat (n - 1)) (max_retries - 1)) as [_|E];
      [|subst n; lia].
    cbn [fst snd]. rewrite Hs. cbn [calls].
    replace (S (n - 1)) with n by (subst n; lia). now repeat split. }
  split.
  - intros Hfail. destruct (Hall Hfail) as (e & H1 & H2 & H3 & H4).
    exists e.
    split; [exact H1|]. split; [exact H2|]. split; [exact H3|].
    split; [exact H4|]. split; [apply requests_upto_length|].
    split; [|split; [reflexivity|split]].
    + intros k Hk. unfold requests_upto.
      rewrite nth_error_map, nth_error_seq.
      destruct (Nat.ltb_spec (S k) n) as [_|F]; [|lia]. reflexivity.
    + exists (enforcer_request system_msg p0). split; [|reflexivity].
      apply (@requests_upto_nth system_msg p0 n 0). subst n. lia.
    + intros k Hk.
      exists (enforcer_request system_msg (prompt_at p0 k)),
        (enforcer_request system_msg (prompt_at p0 (S k))), (prompt_at p0 k).
      split; [apply requests_upto_nth; lia|].
      split; [apply requests_upto_nth; lia|].
      split; [reflexivity|]. split.
      * reflexivity.
      * pose proof (retry_note_length k) as L. unfold retry_note in L.
        rewrite length_app. lia.
  - intros Hans e.
    assert (Hk : forall k, outcome_at output_schema system_msg p0 st k = Raise e).
    { intros k. unfold outcome_at.
      erewrite attempt_body_text
        by (rewrite (surjective_pairing (completion _ _)); now rewrite Hans).
      reflexivity. }
    destruct Hall as (e' & H1 & _ & H3 & H4).
    { intros k _. now rewrite Hk. }
    rewrite Hk in H1. injection H1 as <-. now split.
Qed.

(** C3: when the attempts up to attempt [k] fail to parse or fail the key
    check, then, if attempt [k] is not the last, attempt [k + 1] is made:
    its request carries the same system message and, as user message, the
    user message of attempt [k] followed by two newlines and the note
    [ATTEMPT k+2: Previous attempt failed. Return ONLY valid JSON.], which
    makes it longer; if attempt [k] is the last, the enforcer raises. *)
Theorem corrective_note_then_raise
  (output_schema : dict) (max_retries : Z) (prompt : str)
  (system_message : option str) (st : State) (k : nat) :
  let system_msg := or_default system_message default_system_msg in
  let p0 := initial_json_prompt output_schema prompt in
  let n := Z.to_nat max_retries in
  let run := create_json_enforcer output_schema max_retries prompt
               system_message st in
  (forall j, (j <= k)%nat ->
             is_retryable (outcome_at output_schema system_msg p0 st j) = true) ->
  ((S k < n)%nat ->
   exists more,
     calls (snd run)
     = calls st ++ requests_upto system_msg p0 k
         ++ enforcer_request system_msg (prompt_at p0 k)
         :: enforcer_request system_msg (prompt_at p0 k ++ retry_note k)
         :: more
     /\ exists failed amended user_prompt,
         nth_error (calls (snd run)) (List.length (calls st) + k) = Some failed
         /\ nth_error (calls (snd run)) (List.length (calls st) + S k)
            = Some amended
         /\ messages failed
            = [ {| role := py "system"; content := system_msg |};
                {| role := py "user"; content := user_prompt |} ]
         /\ messages amended
            = [ {| role := py "system"; content := system_msg |};
                {| role := py "user";
                   content :=
                     user_prompt ++ nl ++ nl ++ py "ATTEMPT "
                       ++ str_of_nat (k + 2)
                       ++ py ": Previous attempt failed. Return ONLY valid JSON." |} ]
         /\ (List.length user_prompt
              < List.length
                  (user_prompt ++ nl ++ nl ++ py "ATTEMPT "
                     ++ str_of_nat (k + 2)
                     ++ py ": Previous attempt failed. Return ONLY valid JSON."))%nat)
  /\ (S k = n ->
      exists e,
        outcome_at output_schema system_msg p0 st k = Raise e
        /\ fst run = Raise (Exception_ (failure_msg max_retries e) e)).
Proof.
  intros system_msg p0 n run Hfail.
  assert (Hat : (k < n)%nat ->
    run = match attempt_body output_schema system_msg (prompt_at p0 k)
                  (state_at output_schema system_msg p0 st k) with
          | (Return parsed, st') => (Return parsed, st')
          | (Raise e, st') =>
              if is_ValueError e then
                if (Z.of_nat k =? max_retries - 1)%Z
                then (Raise (Exception_ (failure_msg max_retries e) e), st')
                else retry_loop output_schema max_retries system_msg
                       (seq (S k) (n - S k)) (prompt_at p0 (S k)) st'
              else (Raise e, st')
          end).
  { intros Hk. apply enforce_at; [exact Hk|]. intros j Hj. apply Hfail. lia. }
  pose proof (Hfail k (Nat.le_refl k)) as Hlast. unfold outcome_at in Hlast |- *.
  pose proof (state_at_S output_schema system_msg p0 st k) as Hs.
  destruct (attempt_body output_schema system_msg (prompt_at p0 k)
              (state_at output_schema system_msg p0 st k))
    as [[parsed|e] st']; cbn [fst snd is_retryable] in *; [discriminate|].
  rewrite Hlast in Hat. split.
  - intros Hk. rewrite Hat by lia.
    destruct (Z.eqb_spec (Z.of_nat k) (max_retries - 1)) as [E|_];
      [subst n; lia|].
    destruct (retry_loop_calls output_schema max_retries system_msg
                (seq (S k) (n - S k)) (prompt_at p0 (S k)) st')
      as (new & Hc & _ & Hne & _).
    destruct Hne as [more ->].
    { replace (n - S k)%nat with (S (n - S (S k))) by lia. discriminate. }
    exists more.
    assert (Hcalls : calls
                       (snd (retry_loop output_schema max_retries system_msg
                               (seq (S k) (n - S k)) (prompt_at p0 (S k)) st'))
                     = calls st ++ requests_upto system_msg p0 k
                         ++ enforcer_request system_msg (prompt_at p0 k)
                         :: enforcer_request system_msg
                              (prompt_at p0 k ++ retry_note k)
                         :: more).
    { rewrite Hc, Hs. cbn [calls prompt_at].
      rewrite requests_upto_S, <- !app_assoc. reflexivity. }
    split; [exact Hcalls|].
    exists (enforcer_request system_msg (prompt_at p0 k)),
      (enforcer_request system_msg (prompt_at p0 k ++ retry_note k)),
      (prompt_at p0 k).
    rewrite Hcalls.
    split; [|split; [|split; [reflexivity|split; [reflexivity|]]]].
    + rewrite nth_error_app2 by lia.
      replace (List.length (calls st) + k - List.length (calls st))%nat
        with (List.length (requests_upto system_msg p0 k) + 0)%nat
        by (rewrite requests_upto_length; lia).
      now rewrite nth_error_app2, Nat.add_comm, Nat.add_sub by lia.
    + rewrite nth_error_app2 by lia.
      replace (List.length (calls st) + S k - List.length (calls st))%nat
        with (List.length (requests_upto system_msg p0 k) + 1)%nat
        by (rewrite requests_upto_length; lia).
      now rewrite nth_error_app2, Nat.add_comm, Nat.add_sub by lia.
    + pose proof (retry_note_length k) as L. unfold retry_note in L.
      rewrite length_app. lia.
  - intros Hk. exists e. split; [reflexivity|]. rewrite Hat by lia.
    destruct (Z.eqb_spec (Z.of_nat k) (max_retries - 1)) as [_|E];
      [reflexivity|subst n; lia].
Qed.

(** C8: an exception of the completion call that is no [ValueError] (so no
    JSON decode error either) leaves the enforcer as it is, unwrapped, on
    whatever attempt it is raised: the request of that attempt is the last
    one sent. *)
Theorem other_exceptions_propagate
  (output_schema : dict) (max_retries : Z) (prompt : str)
  (system_message : option str) (st : State) (k : nat) (w' : World) (e : exn) :
  let system_msg := or_default system_message default_system_msg in
  let p0 := initial_json_prompt output_schema prompt in
  (k < Z.to_nat max_retries)%nat ->
  (forall j, (j < k)%nat ->
             is_retryable (outcome_at output_schema system_msg p0 st j) = true) ->
  completion (world (state_at output_schema system_msg p0 st k))
    (enforcer_request system_msg (prompt_at p0 k)) = (w', Raise e) ->
  is_ValueError e = false ->
  enforce_json_output output_schema max_retries prompt system_message st
  = (Raise e,
     {| world := w';
        calls := calls st ++ requests_upto system_msg p0 (S k);
        console := console st |}).
Proof.
  intros system_msg p0 Hk Hfail Hc He.
  rewrite (@enforce_at output_schema max_retries prompt system_message st k Hk Hfail).
  fold system_msg p0.
  pose proof (state_at_S output_schema system_msg p0 st k) as Hs.
  pose proof (@attempt_body_raise output_schema system_msg (prompt_at p0 k)
                (state_at output_schema system_msg p0 st k) w' e Hc) as Hr.
  destruct (attempt_body output_schema system_msg (prompt_at p0 k)
              (state_at output_schema system_msg p0 st k)) as [r st'].
  cbn [fst snd] in *. subst r st'. rewrite He, Hc. reflexivity.
Qed.

(** C6: with a schema of the keys [status], [message] and [data], and the
    fenced response of the scenario as the first answer of the endpoint, the
    cleaning yields the bare object, the parse yields the mapping with
    exactly those three keys, the mapping passes [validate_schema], and the
    enforcer returns it after that single request. *)
Theorem fenced_success_returned
  (output_schema : dict) (max_retries : Z) (prompt : str)
  (system_message : option str) (st : State) (w' : World) :
  let system_msg := or_default system_message default_system_msg in
  let p0 := initial_json_prompt output_schema prompt in
  dict_keys output_schema = [py "status"; py "message"; py "data"] ->
  (0 < max_retries)%Z ->
  completion (world st) (enforcer_request system_msg p0)
  = (w', Return (text_response fenced_success)) ->
  clean_response fenced_success = success_payload
  /\ json_loads success_payload = Some success_mapping
  /\ validate_schema success_mapping output_schema = true
  /\ enforce_json_output output_schema max_retries prompt system_message st
     = (Return success_mapping,
        {| world := w';
           calls := calls st ++ [enforcer_request system_msg p0];
           console := console st |}).
Proof.
  intros system_msg p0 Hkeys Hpos Hc.
  assert (Hv : validate_schema success_mapping output_schema = true).
  { unfold success_mapping. cbn [validate_schema]. rewrite Hkeys. reflexivity. }
  split; [reflexivity|]. split; [reflexivity|]. split; [exact Hv|].
  assert (Hk : (0 < Z.to_nat max_retries)%nat) by lia.
  rewrite (@enforce_at output_schema max_retries prompt system_message st 0 Hk)
    by (intros j Hj; lia).
  fold system_msg p0. cbn [prompt_at state_at].
  pose proof (attempt_body_state output_schema system_msg p0 st) as Hs.
  pose proof (@attempt_body_text output_schema system_msg p0 st w'
                fenced_success Hc) as Hr.
  change (json_loads (clean_response fenced_success)) with (Some success_mapping) in Hr.
  cbv iota beta in Hr. rewrite Hv in Hr.
  destruct (attempt_body output_schema system_msg p0 st) as [r st'].
  cbn [fst snd] in *. subst r st'. now rewrite Hc.
Qed.

(** ** The single-shot extractor *)

Lemma json_loads_fence (raw : str) :
  startswith raw fence = true -> json_loads raw = None.
Proof.
  intros H. apply startswith_spec in H as [t ->]. reflexivity.
Qed.

(** C10: [extract_structured_data] sends one request, whatever happens, and
    hands the content of the answer to [json.loads] as it is: its result is
    the parse of the raw text, or the JSON decode error.  A text that starts
    with a fence marker, such as the fenced response that the enforcer
    accepts, makes it raise the decode error; a parsed value is returned
    whether or not it passes [validate_schema], as the empty object is for
    every schema with a key. *)
Theorem extract_is_single_unchecked_parse
  (text : str) (schema : dict) (st : State) :
  calls (snd (extract_structured_data text schema st))
  = calls st ++ [extract_request text schema]
  /\ (forall w' raw,
        completion (world st) (extract_request text schema)
        = (w', Return (text_response raw)) ->
        fst (extract_structured_data text schema st)
        = match json_loads raw with
          | Some v => Return v
          | None => Raise (JSONDecodeError (decode_msg raw))
          end
        /\ (startswith raw fence = true ->
            fst (extract_structured_data text schema st)
            = Raise (JSONDecodeError (decode_msg raw)))
        /\ (raw = fenced_success ->
            fst (extract_structured_data text schema st)
            = Raise (JSONDecodeError (decode_msg raw)))
        /\ (raw = py "{}" ->
            fst (extract_structured_data text schema st) = Return (JObj [])
            /\ (schema <> [] -> validate_schema (JObj []) schema = false))).
Proof.
  split.
  - unfold extract_structured_data. run_monad.
    destruct (completion (world st) (extract_request text schema)) as [w' [resp|e]];
      [|reflexivity].
    destruct (first_content resp) as [[raw|]|e]; reflexivity.
  - intros w' raw Hc.
    assert (Hr : fst (extract_structured_data text schema st)
                 = match json_loads raw with
                   | Some v => Return v
                   | None => Raise (JSONDecodeError (decode_msg raw))
                   end).
    { unfold extract_structured_data, loads. run_monad. rewrite Hc.
      cbn [text_response first_content choices message message_content].
      destruct (json_loads raw); reflexivity. }
    split; [exact Hr|]. split; [|split].
    + intros Hf. now rewrite Hr, json_loads_fence.
    + intros ->. now rewrite Hr.
    + intros ->. split; [now rewrite Hr|].
      intros Hne. destruct schema as [|[k v] schema]; [congruence|reflexivity].
Qed.

(** ** The example loops *)

(** The [try]/[except Exception] of [report] lets nothing out, provided the
    call itself prints nothing. *)
Lemma report_returns (heading : str) (call : M json) (st : State) :
  console (snd (call st)) = console st ->
  fst (report heading call st) = Return tt
  /\ exists lines, console (snd (report heading call st)) = console st ++ lines.
Proof.
  intros Hc. unfold report. run_monad.
  destruct (call st) as [[v|e] st']; cbn [fst snd] in *.
  - split; [reflexivity|]. rewrite Hc, <- !app_assoc. cbn [console].
    eexists. reflexivity.
  - split; [reflexivity|]. rewrite Hc, <- !app_assoc. cbn [console].
    eexists. reflexivity.
Qed.

Lemma enforcer_console (output_schema : dict) (max_retries : Z) (prompt : str)
  (system_message : option str) (st : State) :
  console (snd (create_json_enforcer output_schema max_retries prompt
                  system_message st)) = console st.
Proof.
  unfold create_json_enforcer, enforce_json_output.
  destruct (retry_loop_calls output_schema max_retries
              (or_default system_message default_system_msg)
              (range max_retries)
              (initial_json_prompt output_schema prompt) st)
    as (new & _ & _ & _ & Hp).
  exact Hp.
Qed.

Lemma analysis_loop_cons (enforcer : str -> option str -> M json) (i : nat)
  (query : str) (rest : list str) (st : State) :
  analysis_loop enforcer i (query :: rest) st
  = match report (py "Analysis:")
            (enforcer
               (py "Analyze this SQL query and provide structured output: " ++ query)
               (Some (py "You are a SQL analysis API that returns only JSON.")))
            {| world := world st;
               calls := calls st;
               console := (console st
                           ++ [py "--- Analysis " ++ str_of_nat i ++ py " ---"])
                          ++ [py "Query: " ++ strip query] |} with
    | (Return _, st1) => analysis_loop enforcer (S i) rest st1
    | (Raise e, st1) => (Raise e, st1)
    end.
Proof. reflexivity. Qed.

(** The loop of [demonstrate_query_analysis] never raises and prints the
    heading of every query, whatever the endpoint does. *)
Lemma analysis_loop_runs_all (output_schema : dict) (max_retries : Z)
  (queries : list str) :
  forall (i : nat) (st : State),
    let run := analysis_loop (create_json_enforcer output_schema max_retries)
                 i queries st in
    fst run = Return tt
    /\ exists lines,
        console (snd run) = console st ++ lines
        /\ forall j, (j < List.length queries)%nat ->
             In (py "--- Analysis " ++ str_of_nat (i + j) ++ py " ---") lines.
Proof.
  induction queries as [|query rest IH]; intros i st run.
  - split; [reflexivity|]. exists []. cbn. rewrite app_nil_r.
    split; [reflexivity|]. intros j Hj. lia.
  - subst run. rewrite analysis_loop_cons.
    match goal with
    | |- context [report ?h ?c ?s] =>
        destruct (@report_returns h c s (enforcer_console _ _ _ _ _))
          as (Hr & lines & Hl);
        destruct (report h c s) as [r st1]
    end.
    cbn [fst snd] in Hr, Hl. subst r. cbn [console] in Hl. cbv beta iota.
    destruct (IH (S i) st1) as (Hr' & lines' & Hl' & Hin).
    split; [exact Hr'|].
    exists ([py "--- Analysis " ++ str_of_nat i ++ py " ---";
             py "Query: " ++ strip query] ++ lines ++ lines').
    rewrite Hl', Hl, <- !app_assoc. split; [reflexivity|].
    intros [|j] Hj; cbn [app].
    + rewrite Nat.add_0_r. now left.
    + right. right. apply in_or_app. right.
      replace (i + S j)%nat with (S i + j)%nat by lia.
      apply Hin. cbn [List.length] in Hj. lia.
Qed.

(** X21: [demonstrate_query_analysis] returns whatever the endpoint does,
    and the headings of the three analyses are all among the lines it
    prints. *)
Lemma demonstrate_query_analysis_runs_all (st : State) :
  fst (demonstrate_query_analysis st) = Return tt
  /\ exists lines,
      console (snd (demonstrate_query_analysis st)) = console st ++ lines
      /\ In (py "--- Analysis 1 ---") lines
      /\ In (py "--- Analysis 2 ---") lines
      /\ In (py "--- Analysis 3 ---") lines.
Proof.
  assert (E : demonstrate_query_analysis st
              = analysis_loop
                  (create_json_enforcer analysis_schema default_max_retries)
                  1 queries_to_analyze
                  {| world := world st;
                     calls := calls st;
                     console := console st
                                ++ [py "=== STRUCTURED QUERY ANALYSIS ===" ++ nl] |})
    by reflexivity.
  rewrite E.
  match goal with
  | |- context [analysis_loop ?en 1 ?qs ?s] =>
      destruct (@analysis_loop_runs_all analysis_schema default_max_retries qs 1 s)
        as (Hr & lines & Hl & Hin)
  end.
  split; [exact Hr|].
  exists ([py "=== STRUCTURED QUERY ANALYSIS ===" ++ nl] ++ lines).
  rewrite Hl. cbn [console]. rewrite <- app_assoc. split; [reflexivity|].
  repeat split; right.
  - apply (Hin 0%nat). cbn. lia.
  - apply (Hin 1%nat). cbn. lia.
  - apply (Hin 2%nat). cbn. lia.
Qed.

(** So does the loop of [test_edge_cases]. *)
Lemma edge_loop_returns (output_schema : dict) (max_retries : Z)
  (cases : list str) :
  forall (i : nat) (st : State),
    fst (edge_loop (create_json_enforcer output_schema max_retries) i cases st)
    = Return tt.
Proof.
  induction cases as [|edge_case rest IH]; intros i st; [reflexivity|].
  change (edge_loop (create_json_enforcer output_schema max_retries) i
            (edge_case :: rest) st)
    with (match report (py "Response:")
                  (create_json_enforcer output_schema max_retries edge_case
                     (Some (py "Handle any input and return structured JSON response.")))
                  {| world := world st;
                     calls := calls st;
                     console := (console st
                                 ++ [py "--- Edge Case " ++ str_of_nat i ++ py " ---"])
                                ++ [py "Input: '" ++ edge_case ++ py "'"] |} with
          | (Return _, st1) =>
              edge_loop (create_json_enforcer output_schema max_retries) (S i)
                rest st1
          | (Raise e, st1) => (Raise e, st1)
          end).
  match goal with
  | |- context [report ?h ?c ?s] =>
      destruct (@report_returns h c s (enforcer_console _ _ _ _ _)) as (Hr & _);
      destruct (report h c s) as [r st1]
  end.
  cbn [fst] in Hr. subst r. apply IH.
Qed.

Lemma test_edge_cases_returns (st : State) :
  fst (test_edge_cases st) = Return tt.
Proof.
  change (test_edge_cases st)
    with (edge_loop (create_json_enforcer simple_schema default_max_retries)
            1 edge_cases
            {| world := world st;
               calls := calls st;
               console := console st ++ [py "=== EDGE CASES TEST ===" ++ nl] |}).
  apply edge_loop_returns.
Qed.

(** C7, at the loop of [demonstrate_pattern_learning]: when the request of
    the first pattern fails, the exception leaves the function after the
    heading of that pattern; the second pattern is neither announced nor
    requested. *)
Theorem pattern_learning_aborts_on_failure (st : State) (w' : World) (e : exn) :
  completion (world st) (pattern_request error_analysis) = (w', Raise e) ->
  demonstrate_pattern_learning st
  = (Raise e,
     {| world := w';
        calls := calls st ++ [pattern_request error_analysis];
        console := console st
                   ++ [py "=== PATTERN LEARNING DEMO ===" ++ nl;
                       py "--- Error Analysis Pattern ---"] |}).
Proof.
  intros Hc. unfold demonstrate_pattern_learning, patterns.
  cbn [pattern_loop]. run_monad. rewrite Hc. now rewrite <- app_assoc.
Qed.

(** ** Further properties of the fence cleaning *)

Lemma no_fence_not_startswith (s : str) :
  contains s fence = false -> startswith s fence = false.
Proof.
  intros H. destruct (startswith s fence) eqn:E; [|reflexivity].
  apply contains_startswith in E. congruence.
Qed.

(** X1: cleaning a cleaned text changes nothing: whatever the text, one pass
    of the cleaning removes everything a second pass would. *)
Theorem clean_fences_idempotent (text : str) :
  clean_fences (clean_fences text) = clean_fences text.
Proof.
  destruct (startswith text fence) eqn:E.
  - apply clean_fences_unfenced, no_fence_not_startswith.
    now apply clean_fences_no_fence.
  - now rewrite !(@clean_fences_unfenced text E).
Qed.

Lemma lstrip_length (s : str) : (List.length (lstrip s) <= List.length s)%nat.
Proof.
  induction s as [|c s IH]; [reflexivity|].
  cbn [lstrip]. destruct (isspace c); cbn [List.length]; lia.
Qed.

Lemma lstrip_idempotent (s : str) : lstrip (lstrip s) = lstrip s.
Proof.
  induction s as [|c s IH]; [reflexivity|].
  cbn [lstrip]. destruct (isspace c) eqn:E; [exact IH|].
  cbn [lstrip]. now rewrite E.
Qed.

(** A text is its own [lstrip] exactly when it does not start with white
    space. *)
Lemma lstrip_fixed_iff (s : str) :
  lstrip s = s <-> match s with [] => True | c :: _ => isspace c = false end.
Proof.
  destruct s as [|c s]; [tauto|]. cbn [lstrip].
  destruct (isspace c) eqn:E; split; try tauto; try discriminate.
  intros H. pose proof (lstrip_length s) as L. rewrite H in L.
  cbn [List.length] in L. lia.
Qed.

Lemma rstrip_idempotent (s : str) : rstrip (rstrip s) = rstrip s.
Proof.
  unfold rstrip. now rewrite rev_involutive, lstrip_idempotent.
Qed.

Lemma lstrip_rstrip (s : str) : lstrip s = s -> lstrip (rstrip s) = rstrip s.
Proof.
  intros H. apply lstrip_fixed_iff. apply lstrip_fixed_iff in H.
  destruct (rstrip_prefix s) as [b Hb].
  destruct (rstrip s) as [|c r]; [exact I|].
  rewrite Hb in H. exact H.
Qed.

Lemma strip_idempotent (s : str) : strip (strip s) = strip s.
Proof.
  unfold strip.
  rewrite (@lstrip_rstrip (lstrip s) (lstrip_idempotent s)).
  apply rstrip_idempotent.
Qed.

(** X2: the text handed to [json.loads] never starts or ends with white
    space: it is its own [strip], fenced or not. *)
Theorem clean_response_stripped (text : str) :
  strip (clean_response text) = clean_response text.
Proof.
  unfold clean_response, clean_fences.
  destruct (startswith (strip text) fence_json);
    [apply strip_idempotent|].
  destruct (startswith (strip text) fence); apply strip_idempotent.
Qed.

(** ** Further properties of the validator *)

(** X3: the check is monotone: a mapping that passes stays accepted when it
    gains keys and when the schema loses keys; in particular extra keys in
    the response are tolerated, and the empty schema accepts every
    mapping. *)
Theorem validate_schema_monotone (members members' : dict)
  (schema schema' : dict) :
  validate_schema (JObj members) schema = true ->
  (forall key, In key (dict_keys members) -> In key (dict_keys members')) ->
  (forall key, In key (dict_keys schema') -> In key (dict_keys schema)) ->
  validate_schema (JObj members') schema' = true
  /\ validate_schema (JObj members') [] = true.
Proof.
  intros H Hm Hs. split; [|reflexivity].
  cbn [validate_schema] in *. rewrite forallb_forall in *.
  intros key Hk. apply dict_mem_In, Hm, dict_mem_In, H, Hs, Hk.
Qed.

(** ** Further properties of the enforcer *)

Lemma retry_loop_returns_valid (output_schema : dict) (max_retries : Z)
  (system_msg : str) (m : nat) :
  forall (i : nat) (p : str) (st : State) (v : json),
    Z.of_nat (i + S m) = max_retries ->
    fst (retry_loop output_schema max_retries system_msg (seq i (S m)) p st)
    = Return v ->
    validate_schema v output_schema = true.
Proof.
  induction m as [|m IH]; intros i p st v Hn; cbn [seq retry_loop];
    pose proof (@attempt_body_return output_schema system_msg p st) as Hv;
    destruct (attempt_body output_schema system_msg p st) as [[parsed|e] st'];
    cbn [fst] in *.
  - intros [= <-]. now apply Hv.
  - destruct (is_ValueError e); [|discriminate].
    destruct (Z.eqb_spec (Z.of_nat i) (max_retries - 1)) as [_|E];
      [discriminate|lia].
  - intros [= <-]. now apply Hv.
  - destruct (is_ValueError e); [|discriminate].
    destruct (Z.of_nat i =? max_retries - 1)%Z; [discriminate|].
    apply (IH (S i)). lia.
Qed.

(** X4: whatever the endpoint does, a value returned under a ceiling of at
    least one attempt is a mapping that passes [validate_schema] against the
    enforcer's schema; under a ceiling of zero or less the value is [None]. *)
Theorem enforcer_returns_only_valid
  (output_schema : dict) (max_retries : Z) (prompt : str)
  (system_message : option str) (st : State) (v : json) :
  fst (create_json_enforcer output_schema max_retries prompt system_message st)
  = Return v ->
  ((0 < max_retries)%Z ->
   validate_schema v output_schema = true /\ exists members, v = JObj members)
  /\ ((max_retries <= 0)%Z -> v = JNull).
Proof.
  unfold create_json_enforcer. intros H. split.
  - intros Hpos. unfold enforce_json_output, range in H.
    replace (Z.to_nat max_retries) with (S (Z.to_nat max_retries - 1)) in H
      by lia.
    apply retry_loop_returns_valid in H; [|lia].
    split; [exact H|]. now apply validate_schema_mapping with (schema := output_schema).
  - intros Hle. rewrite enforcer_without_attempts_eq in H by exact Hle.
    now injection H as <-.
Qed.

(** X5: the enforcer never lets a [ValueError] out, a JSON decode error
    included: what it raises is either the final [Exception] or an exception
    of another class that came from the attempt. *)
Theorem enforcer_raises_no_value_error
  (output_schema : dict) (max_retries : Z) (prompt : str)
  (system_message : option str) (st : State) (e : exn) :
  fst (create_json_enforcer output_schema max_retries prompt system_message st)
  = Raise e ->
  is_ValueError e = false.
Proof.
  unfold create_json_enforcer, enforce_json_output.
  generalize (initial_json_prompt output_schema prompt) as p.
  generalize (range max_retries) as attempts. revert st e.
  intros st e attempts. revert st e.
  induction attempts as [|attempt rest IH]; intros st e p; [discriminate|].
  cbn [retry_loop].
  destruct (attempt_body output_schema
              (or_default system_message default_system_msg) p st)
    as [[parsed|e'] st']; [discriminate|].
  destruct (is_ValueError e') eqn:E.
  - destruct (Z.of_nat attempt =? max_retries - 1)%Z.
    + cbn [fst]. intros [= <-]. reflexivity.
    + apply IH.
  - cbn [fst]. intros [= <-]. exact E.
Qed.

Lemma retry_loop_requests (output_schema : dict) (max_retries : Z)
  (system_msg : str) (m : nat) :
  forall (i : nat) (p : str) (st : State),
  exists j,
    (j <= m)%nat /\ (m <> 0%nat -> j <> 0%nat)
    /\ calls (snd (retry_loop output_schema max_retries system_msg (seq i m) p st))
       = calls st
           ++ map (fun k => enforcer_request system_msg
                              (p ++ List.concat (map retry_note (seq i k))))
                (seq 0 j).
Proof.
  induction m as [|m IH]; intros i p st.
  - exists 0%nat. cbn. rewrite app_nil_r. repeat split; [lia|congruence].
  - cbn [seq retry_loop].
    pose proof (attempt_body_state output_schema system_msg p st) as Hs.
    assert (Hone : calls st ++ [enforcer_request system_msg p]
                   = calls st
                       ++ map (fun k => enforcer_request system_msg
                                          (p ++ List.concat (map retry_note (seq i k))))
                            (seq 0 1)).
    { cbn. now rewrite app_nil_r. }
    destruct (attempt_body output_schema system_msg p st) as [[parsed|e] st'];
      cbn [snd] in Hs; subst st'.
    + exists 1%nat. cbn [snd calls]. repeat split; [lia|lia|exact Hone].
    + destruct (is_ValueError e).
      * destruct (Z.of_nat i =? max_retries - 1)%Z.
        -- exists 1%nat. cbn [snd calls]. repeat split; [lia|lia|exact Hone].
        -- match goal with
           | |- context [retry_loop _ _ _ (seq (S i) m) ?q ?s] =>
               destruct (IH (S i) q s) as (j & Hj & _ & Hc)
           end.
           exists (S j). rewrite Hc. cbn [calls].
           repeat split; [lia|lia|].
           rewrite <- app_assoc. f_equal. cbn [app].
           change (seq 0 (S j)) with (0%nat :: seq 1 j). cbn [map].
           rewrite <- seq_shift, map_map. f_equal.
           ++ cbn. now rewrite app_nil_r.
           ++ apply map_ext. intros k. cbn [seq map List.concat].
              now rewrite <- app_assoc.
      * exists 1%nat. cbn [snd calls]. repeat split; [lia|lia|exact Hone].
Qed.

(** X6: whatever the endpoint does, the requests of one call of the enforcer
    are at most [max_retries], at least one when the ceiling allows one, and
    request number [k] always names the model
    [openrouter/openai/gpt-oss-20b], the key read from [OPENROUTER_API_KEY],
    the temperature 0.1, the system message and, as user message, the
    initial prompt followed by the notes
    [ATTEMPT i+2: Previous attempt failed. Return ONLY valid JSON.] of the
    attempts [i] before it, each after two newlines.  The system message is
    the one given, or [You are a JSON-only API. Return only valid JSON.]
    when none or an empty one is given. *)
Theorem enforcer_requests_chain
  (output_schema : dict) (max_retries : Z) (prompt : str)
  (system_message : option str) (st : State) :
  let system_msg := or_default system_message default_system_msg in
  let p0 := initial_json_prompt output_schema prompt in
  let run := create_json_enforcer output_schema max_retries prompt
               system_message st in
  (exists j,
      (j <= Z.to_nat max_retries)%nat
      /\ ((0 < max_retries)%Z -> (1 <= j)%nat)
      /\ calls (snd run)
         = calls st
             ++ map (fun k => enforcer_request system_msg (p0 ++ notes_upto k))
                  (seq 0 j)
      /\ List.length (calls (snd run)) = (List.length (calls st) + j)%nat)
  /\ (forall k request,
        nth_error (calls (snd run)) (List.length (calls st) + k) = Some request ->
        model request = py "openrouter/openai/gpt-oss-20b"
        /\ api_key request = getenv (py "OPENROUTER_API_KEY")
        /\ temperature request = 1 # 10
        /\ messages request
           = [ {| role := py "system"; content := system_msg |};
               {| role := py "user";
                  content :=
                    p0 ++ List.concat
                            (map (fun i =>
                                    nl ++ nl ++ py "ATTEMPT " ++ str_of_nat (i + 2)
                                       ++ py ": Previous attempt failed. Return ONLY valid JSON.")
                               (seq 0 k)) |} ])
  /\ (system_message = None \/ system_message = Some [] ->
      system_msg = py "You are a JSON-only API. Return only valid JSON.")
  /\ (forall c s, system_message = Some (c :: s) -> system_msg = c :: s).
Proof.
  intros system_msg p0 run.
  assert (Hchain : exists j,
             (j <= Z.to_nat max_retries)%nat
             /\ ((0 < max_retries)%Z -> (1 <= j)%nat)
             /\ calls (snd run)
                = calls st
                    ++ map (fun k => enforcer_request system_msg
                                       (p0 ++ notes_upto k))
                         (seq 0 j)).
  { subst run. unfold create_json_enforcer, enforce_json_output, range.
    destruct (retry_loop_requests output_schema max_retries system_msg
                (Z.to_nat max_retries) 0 p0 st) as (j & Hj & Hne & Hc).
    exists j. repeat split; [exact Hj| |exact Hc].
    intros Hpos. assert (j <> 0%nat) by (apply Hne; lia). lia. }
  destruct Hchain as (j & Hj & Hpos & Hc).
  split; [|split; [|split]].
  - exists j. repeat split; try assumption.
    now rewrite Hc, length_app, length_map, length_seq.
  - intros k request Hn. rewrite Hc in Hn.
    rewrite nth_error_app2, Nat.add_comm, Nat.add_sub in Hn by lia.
    rewrite nth_error_map, nth_error_seq in Hn.
    destruct (Nat.ltb_spec k j) as [_|F]; [|discriminate].
    cbn in Hn. injection Hn as <-. repeat split.
  - intros [-> | ->]; reflexivity.
  - intros c s ->. reflexivity.
Qed.

Lemma enforce_first_answer
  (output_schema : dict) (max_retries : Z) (prompt : str)
  (system_message : option str) (st : State) (w' : World) (text : str)
  (v : json) :
  let system_msg := or_default system_message default_system_msg in
  let p0 := initial_json_prompt output_schema prompt in
  (0 < max_retries)%Z ->
  completion (world st) (enforcer_request system_msg p0)
  = (w', Return (text_response text)) ->
  json_loads (clean_response text) = Some v ->
  validate_schema v output_schema = true ->
  enforce_json_output output_schema max_retries prompt system_message st
  = (Return v,
     {| world := w';
        calls := calls st ++ [enforcer_request system_msg p0];
        console := console st |}).
Proof.
  intros system_msg p0 Hpos Hc Hparse Hv.
  assert (Hk : (0 < Z.to_nat max_retries)%nat) by lia.
  rewrite (@enforce_at output_schema max_retries prompt system_message st 0 Hk)
    by (intros j Hj; lia).
  fold system_msg p0. cbn [prompt_at state_at].
  pose proof (attempt_body_state output_schema system_msg p0 st) as Hs.
  pose proof (@attempt_body_text output_schema system_msg p0 st w' text Hc) as Hr.
  rewrite Hparse, Hv in Hr.
  destruct (attempt_body output_schema system_msg p0 st) as [r st'].
  cbn [fst snd] in *. subst r st'. now rewrite Hc.
Qed.

(** X8: a first answer whose cleaned text parses to a value that passes the
    key check is returned at once: one request, no corrective note, nothing
    printed. *)
Theorem enforcer_returns_valid_first_answer
  (output_schema : dict) (max_retries : Z) (prompt : str)
  (system_message : option str) (st : State) (w' : World) (text : str)
  (v : json) :
  let system_msg := or_default system_message default_system_msg in
  let p0 := initial_json_prompt output_schema prompt in
  (0 < max_retries)%Z ->
  completion (world st) (enforcer_request system_msg p0)
  = (w', Return (text_response text)) ->
  json_loads (clean_response text) = Some v ->
  validate_schema v output_schema = true ->
  create_json_enforcer output_schema max_retries prompt system_message st
  = (Return v,
     {| world := w';
        calls := calls st ++ [enforcer_request system_msg p0];
        console := console st |}).
Proof.
  intros system_msg p0 Hpos Hc Hparse Hv. unfold create_json_enforcer.
  assert (Hk : (0 < Z.to_nat max_retries)%nat) by lia.
  rewrite (@enforce_at output_schema max_retries prompt system_message st 0 Hk)
    by (intros j Hj; lia).
  fold system_msg p0. cbn [prompt_at state_at].
  pose proof (attempt_body_state output_schema system_msg p0 st) as Hs.
  pose proof (@attempt_body_text output_schema system_msg p0 st w' text Hc) as Hr.
  rewrite Hparse, Hv in Hr.
  destruct (attempt_body output_schema system_msg p0 st) as [r st'].
  cbn [fst snd] in *. subst r st'. now rewrite Hc.
Qed.

(** Every attempt fails with the same caught exception: the enforcer raises
    the final [Exception] chained to it, after as many requests as the
    ceiling allows. *)
Lemma enforce_constant_failure (output_schema : dict) (max_retries : Z)
  (prompt : str) (system_message : option str) (st : State) (e : exn) :
  let system_msg := or_default system_message default_system_msg in
  let p0 := initial_json_prompt output_schema prompt in
  (0 < max_retries)%Z ->
  is_ValueError e = true ->
  (forall k, outcome_at output_schema system_msg p0 st k = Raise e) ->
  fst (enforce_json_output output_schema max_retries prompt system_message st)
  = Raise (Exception_ (failure_msg max_retries e) e)
  /\ calls (snd (enforce_json_output output_schema max_retries prompt
                   system_message st))
     = calls st ++ requests_upto system_msg p0 (Z.to_nat max_retries)
  /\ console (snd (enforce_json_output output_schema max_retries prompt
                     system_message st))
     = console st.
Proof.
  intros system_msg p0 Hpos He Hall.
  set (n := Z.to_nat max_retries).
  assert (Hk : (n - 1 < Z.to_nat max_retries)%nat) by (subst n; lia).
  rewrite (@enforce_at output_schema max_retries prompt system_message st
             (n - 1) Hk)
    by (intros j Hj; fold system_msg p0; rewrite Hall; exact He).
  fold system_msg p0.
  pose proof (Hall (n - 1)%nat) as Hlast. unfold outcome_at in Hlast.
  pose proof (state_at_S output_schema system_msg p0 st (n - 1)) as Hs.
  destruct (attempt_body output_schema system_msg (prompt_at p0 (n - 1))
              (state_at output_schema system_msg p0 st (n - 1))) as [r st'].
  cbn [fst snd] in *. subst r st'. rewrite He.
  destruct (Z.eqb_spec (Z.of_nat (n - 1)) (max_retries - 1)) as [_|E];
    [|subst n; lia].
  cbn [fst snd calls console].
  replace (S (n - 1)) with n by (subst n; lia). now repeat split.
Qed.

(** X9: when the endpoint always answers with a text that parses but lacks a
    key of the schema, the caller gets, after exactly [max_retries] requests,
    the [Exception] whose message ends in [Schema validation failed],
    chained to that [ValueError]. *)
Theorem enforcer_reports_missing_keys
  (output_schema : dict) (max_retries : Z) (prompt : str)
  (system_message : option str) (st : State) (text : str) (v : json) :
  let run := create_json_enforcer output_schema max_retries prompt
               system_message st in
  (0 < max_retries)%Z ->
  (forall w req, snd (completion w req) = Return (text_response text)) ->
  json_loads (clean_response text) = Some v ->
  validate_schema v output_schema = false ->
  fst run
  = Raise (Exception_
             (py "Failed to get valid JSON after " ++ str_of_Z max_retries
                ++ py " attempts: " ++ py "Schema validation failed")
             (ValueError (py "Schema validation failed")))
  /\ List.length (calls (snd run))
     = (List.length (calls st) + Z.to_nat max_retries)%nat.
Proof.
  intros run Hpos Hans Hparse Hv. subst run. unfold create_json_enforcer.
  destruct (@enforce_constant_failure output_schema max_retries prompt
              system_message st (ValueError (py "Schema validation failed"))
              Hpos eq_refl) as (H1 & H2 & _).
  - intros k. unfold outcome_at.
    erewrite attempt_body_text
      by (rewrite (surjective_pairing (completion _ _)); now rewrite Hans).
    now rewrite Hparse, Hv.
  - split; [exact H1|].
    now rewrite H2, length_app, requests_upto_length.
Qed.

(** X10: a [ValueError] raised by the completion call itself is treated like
    a parse failure: it is caught and retried, and when the call raises it
    every time the caller gets the final [Exception] chained to it, after
    [max_retries] requests, not the [ValueError]. *)
Theorem enforcer_retries_value_error_of_endpoint
  (output_schema : dict) (max_retries : Z) (prompt : str)
  (system_message : option str) (st : State) (msg : str) :
  let run := create_json_enforcer output_schema max_retries prompt
               system_message st in
  (0 < max_retries)%Z ->
  (forall w req, snd (completion w req) = Raise (ValueError msg)) ->
  fst run
  = Raise (Exception_ (failure_msg max_retries (ValueError msg))
             (ValueError msg))
  /\ List.length (calls (snd run))
     = (List.length (calls st) + Z.to_nat max_retries)%nat.
Proof.
  intros run Hpos Hans. subst run. unfold create_json_enforcer.
  destruct (@enforce_constant_failure output_schema max_retries prompt
              system_message st (ValueError msg) Hpos eq_refl)
    as (H1 & H2 & _).
  - intros k. unfold outcome_at.
    erewrite attempt_body_raise
      by (rewrite (surjective_pairing (completion _ _)); now rewrite Hans).
    reflexivity.
  - split; [exact H1|].
    now rewrite H2, length_app, requests_upto_length.
Qed.

Lemma attempt_body_no_choice (output_schema : dict) (system_msg p : str)
  (st : State) (w' : World) (response : ModelResponse) :
  completion (world st) (enforcer_request system_msg p) = (w', Return response) ->
  choices response = [] ->
  fst (attempt_body output_schema system_msg p st)
  = Raise (IndexError (py "list index out of range")).
Proof.
  intros Hc He. unfold attempt_body, first_content. run_monad.
  now rewrite Hc, He.
Qed.

Lemma attempt_body_no_content (output_schema : dict) (system_msg p : str)
  (st : State) (w' : World) (response : ModelResponse) (c : Choice)
  (rest : list Choice) :
  completion (world st) (enforcer_request system_msg p) = (w', Return response) ->
  choices response = c :: rest ->
  message_content (message c) = None ->
  fst (attempt_body output_schema system_msg p st)
  = Raise (AttributeError (py "'NoneType' object has no attribute 'strip'")).
Proof.
  intros Hc He Hn. unfold attempt_body, first_content. run_monad.
  now rewrite Hc, He, Hn.
Qed.

(** X11: a response without a choice, or whose first choice has no content,
    ends the enforcer on the attempt where it arrives: [IndexError] or
    [AttributeError] leaves unwrapped and the attempts left are not used. *)
Theorem enforcer_aborts_on_empty_response
  (output_schema : dict) (max_retries : Z) (prompt : str)
  (system_message : option str) (st : State) (k : nat) (w' : World)
  (response : ModelResponse) :
  let system_msg := or_default system_message default_system_msg in
  let p0 := initial_json_prompt output_schema prompt in
  let after :=
    {| world := w';
       calls := calls st ++ requests_upto system_msg p0 (S k);
       console := console st |} in
  (k < Z.to_nat max_retries)%nat ->
  (forall j, (j < k)%nat ->
             is_retryable (outcome_at output_schema system_msg p0 st j) = true) ->
  completion (world (state_at output_schema system_msg p0 st k))
    (enforcer_request system_msg (prompt_at p0 k)) = (w', Return response) ->
  (choices response = [] ->
   enforce_json_output output_schema max_retries prompt system_message st
   = (Raise (IndexError (py "list index out of range")), after))
  /\ (forall c rest,
        choices response = c :: rest ->
        message_content (message c) = None ->
        enforce_json_output output_schema max_retries prompt system_message st
        = (Raise (AttributeError
                    (py "'NoneType' object has no attribute 'strip'")), after)).
Proof.
  intros system_msg p0 after Hk Hfail Hc.
  rewrite (@enforce_at output_schema max_retries prompt system_message st k Hk Hfail).
  fold system_msg p0.
  pose proof (state_at_S output_schema system_msg p0 st k) as Hs.
  rewrite Hc in Hs. cbn [fst] in Hs. fold after in Hs.
  pose proof (@attempt_body_no_choice output_schema system_msg (prompt_at p0 k)
                (state_at output_schema system_msg p0 st k) w' response Hc) as H1.
  pose proof (fun c rest =>
                @attempt_body_no_content output_schema system_msg (prompt_at p0 k)
                  (state_at output_schema system_msg p0 st k) w' response c rest
                  Hc) as H2.
  destruct (attempt_body output_schema system_msg (prompt_at p0 k)
              (state_at output_schema system_msg p0 st k)) as [r st'].
  cbn [fst snd] in *. subst st'. split.
  - intros He. now rewrite (H1 He).
  - intros c rest He Hn. now rewrite (H2 c rest He Hn).
Qed.

(** ** Further properties of the extractor *)

(** X12: [extract_structured_data] catches nothing: an exception of the
    completion call leaves it as it is, a response without a choice raises
    [IndexError] and a first choice without content raises [TypeError]; in
    each case one request was sent and nothing was printed. *)
Theorem extract_propagates_errors (text : str) (schema : dict) (st : State)
  (w' : World) :
  let after :=
    {| world := w';
       calls := calls st ++ [extract_request text schema];
       console := console st |} in
  (forall e,
      completion (world st) (extract_request text schema) = (w', Raise e) ->
      extract_structured_data text schema st = (Raise e, after))
  /\ (forall response,
        completion (world st) (extract_request text schema)
        = (w', Return response) ->
        (choices response = [] ->
         extract_structured_data text schema st
         = (Raise (IndexError (py "list index out of range")), after))
        /\ (forall c rest,
              choices response = c :: rest ->
              message_content (message c) = None ->
              extract_structured_data text schema st
              = (Raise (TypeError
                          (py "the JSON object must be str, bytes or bytearray, not NoneType")),
                 after))).
Proof.
  intros after. split.
  - intros e Hc. unfold extract_structured_data. run_monad. now rewrite Hc.
  - intros response Hc. unfold extract_structured_data, first_content.
    run_monad. rewrite Hc. split.
    + now intros ->.
    + intros c rest -> Hnone. now rewrite Hnone.
Qed.

(** ** Further properties of the example loops *)

Lemma runs_within_ret : runs_within (ret tt) 0 0.
Proof.
  intros st. split; [reflexivity|]. exists [], []. cbn.
  rewrite !app_nil_r. repeat split; lia.
Qed.

Lemma runs_within_print (line : str) : runs_within (print line) 0 0.
Proof.
  intros st. split; [reflexivity|]. exists [], [line]. cbn.
  rewrite app_nil_r. repeat split; lia.
Qed.

Lemma runs_within_seq (c k : M unit) (a b a' b' : nat) :
  runs_within c a b -> runs_within k a' b' ->
  runs_within (c ;;; k) (a + a') (b + b').
Proof.
  intros Hc Hk st. unfold bind.
  destruct (Hc st) as (Hr & new & lines & H1 & H2 & H3).
  destruct (c st) as [r st1]. cbn [fst snd] in *. subst r.
  destruct (Hk st1) as (Hr' & new' & lines' & H1' & H2' & H3').
  split; [exact Hr'|]. exists (new ++ new'), (lines ++ lines').
  rewrite H1', H1, H3', H3, !app_assoc, length_app. repeat split; lia.
Qed.

Lemma runs_within_weaken (m : M unit) (a b lo hi : nat) :
  runs_within m a b -> (lo <= a)%nat -> (b <= hi)%nat -> runs_within m lo hi.
Proof.
  intros H Hlo Hhi st. destruct (H st) as (Hr & new & lines & H1 & H2 & H3).
  split; [exact Hr|]. exists new, lines. repeat split; try assumption; lia.
Qed.

(** The [try]/[except] around a call that sends between [lo] and [hi]
    requests and prints nothing. *)
Lemma runs_within_report (heading : str) (call : M json) (lo hi : nat) :
  (forall st, exists new,
      calls (snd (call st)) = calls st ++ new
      /\ (lo <= List.length new <= hi)%nat
      /\ console (snd (call st)) = console st) ->
  runs_within (report heading call) lo hi.
Proof.
  intros Hcall st. destruct (Hcall st) as (new & H1 & H2 & H3).
  unfold report. run_monad.
  destruct (call st) as [[v|e] st']; cbn [fst snd] in *.
  - split; [reflexivity|].
    exists new, ([heading] ++ [blue (json_dumps v)] ++ [[]]).
    rewrite H1, H3, <- !app_assoc. now repeat split.
  - split; [reflexivity|].
    exists new, ([py "Error: " ++ exn_str e] ++ [[]]).
    rewrite H1, H3, <- !app_assoc. now repeat split.
Qed.

Lemma enforcer_call_bounds (output_schema : dict) (max_retries : Z)
  (prompt : str) (system_message : option str) :
  (0 < max_retries)%Z ->
  forall st, exists new,
    calls (snd (create_json_enforcer output_schema max_retries prompt
                  system_message st)) = calls st ++ new
    /\ (1 <= List.length new <= Z.to_nat max_retries)%nat
    /\ console (snd (create_json_enforcer output_schema max_retries prompt
                       system_message st)) = console st.
Proof.
  intros Hpos st. unfold create_json_enforcer, enforce_json_output.
  destruct (retry_loop_calls output_schema max_retries
              (or_default system_message default_system_msg)
              (range max_retries)
              (initial_json_prompt output_schema prompt) st)
    as (new & Hc & Hl & Hne & Hp).
  exists new. unfold range in Hl, Hne. rewrite length_seq in Hl.
  destruct Hne as [more ->].
  { replace (Z.to_nat max_retries) with (S (Z.to_nat max_retries - 1)) by lia.
    discriminate. }
  cbn [List.length] in *. repeat split; try assumption; lia.
Qed.

Lemma runs_within_report_enforcer (heading : str) (output_schema : dict)
  (max_retries : Z) (prompt : str) (system_message : option str) :
  (0 < max_retries)%Z ->
  runs_within
    (report heading
       (create_json_enforcer output_schema max_retries prompt system_message))
    1 (Z.to_nat max_retries).
Proof. intros H. now apply runs_within_report, enforcer_call_bounds. Qed.

Lemma analysis_loop_bounds (output_schema : dict) (max_retries : Z)
  (queries : list str) :
  (0 < max_retries)%Z ->
  forall i,
    runs_within
      (analysis_loop (create_json_enforcer output_schema max_retries) i queries)
      (List.length queries) (List.length queries * Z.to_nat max_retries).
Proof.
  intros Hpos. induction queries as [|query rest IH]; intros i.
  - apply runs_within_ret.
  - cbn [analysis_loop]. 
    eapply runs_within_weaken;
      [ eapply runs_within_seq; [apply runs_within_print|];
        eapply runs_within_seq; [apply runs_within_print|];
        eapply runs_within_seq;
        [apply runs_within_report_enforcer; assumption|apply IH]
      | cbn [List.length]; lia
      | cbn [List.length]; lia ].
Qed.

Lemma security_loop_bounds (output_schema : dict) (max_retries : Z)
  (queries : list str) :
  (0 < max_retries)%Z ->
  forall i,
    runs_within
      (security_loop (create_json_enforcer output_schema max_retries) i queries)
      (List.length queries) (List.length queries * Z.to_nat max_retries).
Proof.
  intros Hpos. induction queries as [|query rest IH]; intros i.
  - apply runs_within_ret.
  - cbn [security_loop]. 
    eapply runs_within_weaken;
      [ eapply runs_within_seq; [apply runs_within_print|];
        eapply runs_within_seq; [apply runs_within_print|];
        eapply runs_within_seq;
        [apply runs_within_report_enforcer; assumption|apply IH]
      | cbn [List.length]; lia
      | cbn [List.length]; lia ].
Qed.

Lemma performance_loop_bounds (output_schema : dict) (max_retries : Z)
  (queries : list str) :
  (0 < max_retries)%Z ->
  forall i,
    runs_within
      (performance_loop (create_json_enforcer output_schema max_retries) i
         queries)
      (List.length queries) (List.length queries * Z.to_nat max_retries).
Proof.
  intros Hpos. induction queries as [|query rest IH]; intros i.
  - apply runs_within_ret.
  - cbn [performance_loop]. 
    eapply runs_within_weaken;
      [ eapply runs_within_seq; [apply runs_within_print|];
        eapply runs_within_seq; [apply runs_within_print|];
        eapply runs_within_seq;
        [apply runs_within_report_enforcer; assumption|apply IH]
      | cbn [List.length]; lia
      | cbn [List.length]; lia ].
Qed.

Lemma edge_loop_bounds (output_schema : dict) (max_retries : Z)
  (cases : list str) :
  (0 < max_retries)%Z ->
  forall i,
    runs_within
      (edge_loop (create_json_enforcer output_schema max_retries) i cases)
      (List.length cases) (List.length cases * Z.to_nat max_retries).
Proof.
  intros Hpos. induction cases as [|edge_case rest IH]; intros i.
  - apply runs_within_ret.
  - cbn [edge_loop]. 
    eapply runs_within_weaken;
      [ eapply runs_within_seq; [apply runs_within_print|];
        eapply runs_within_seq; [apply runs_within_print|];
        eapply runs_within_seq;
        [apply runs_within_report_enforcer; assumption|apply IH]
      | cbn [List.length]; lia
      | cbn [List.length]; lia ].
Qed.

Lemma demonstrate_query_analysis_bounds :
  runs_within demonstrate_query_analysis 3 9.
Proof.
  unfold demonstrate_query_analysis.
  apply (@runs_within_seq _ _ 0 0 3 9); [apply runs_within_print|].
  apply (@analysis_loop_bounds analysis_schema default_max_retries
           queries_to_analyze eq_refl 1).
Qed.

Lemma demonstrate_security_audit_bounds :
  runs_within demonstrate_security_audit 4 12.
Proof.
  unfold demonstrate_security_audit.
  apply (@runs_within_seq _ _ 0 0 4 12); [apply runs_within_print|].
  apply (@security_loop_bounds security_schema default_max_retries
           vulnerable_queries eq_refl 1).
Qed.

Lemma demonstrate_performance_report_bounds :
  runs_within demonstrate_performance_report 3 9.
Proof.
  unfold demonstrate_performance_report.
  apply (@runs_within_seq _ _ 0 0 3 9); [apply runs_within_print|].
  apply (@performance_loop_bounds performance_schema default_max_retries
           performance_queries eq_refl 1).
Qed.

Lemma test_edge_cases_bounds : runs_within test_edge_cases 4 12.
Proof.
  unfold test_edge_cases.
  apply (@runs_within_seq _ _ 0 0 4 12); [apply runs_within_print|].
  apply (@edge_loop_bounds simple_schema default_max_retries edge_cases
           eq_refl 1).
Qed.

(** X13: none of the four example loops of [6_structured_output.py] ever
    raises, whatever the endpoint does: every example is run, with at least
    one and at most three requests each, so the loops send between 3 and 9,
    4 and 12, 3 and 9, and 4 and 12 requests. *)
Theorem example_loops_never_raise :
  runs_within demonstrate_query_analysis 3 9
  /\ runs_within demonstrate_security_audit 4 12
  /\ runs_within demonstrate_performance_report 3 9
  /\ runs_within test_edge_cases 4 12.
Proof.
  split; [|split; [|split]].
  - apply demonstrate_query_analysis_bounds.
  - apply demonstrate_security_audit_bounds.
  - apply demonstrate_performance_report_bounds.
  - apply test_edge_cases_bounds.
Qed.

Lemma extract_state (text : str) (schema : dict) (st : State) :
  calls (snd (extract_structured_data text schema st))
  = calls st ++ [extract_request text schema]
  /\ console (snd (extract_structured_data text schema st)) = console st.
Proof.
  unfold extract_structured_data. run_monad.
  destruct (completion (world st) (extract_request text schema)) as [w' [resp|e]];
    [|now split].
  destruct (first_content resp) as [[raw|]|e]; now split.
Qed.

Lemma main_extraction_bounds :
  runs_within
    (try_except
       (result <- extract_structured_data query_text main_schema ;;
        print (py "Extracted:") ;;;
        print (blue (json_dumps result)))
       (fun e => print (py "Error: " ++ exn_str e)))
    1 1.
Proof.
  intros st. destruct (extract_state query_text main_schema st) as [H1 H3].
  run_monad.
  destruct (extract_structured_data query_text main_schema st) as [[v|e] st'];
    cbn [fst snd] in *.
  - split; [reflexivity|].
    exists [extract_request query_text main_schema],
      ([py "Extracted:"] ++ [blue (json_dumps v)]).
    rewrite H1, H3, <- !app_assoc. now repeat split.
  - split; [reflexivity|].
    exists [extract_request query_text main_schema], [py "Error: " ++ exn_str e].
    rewrite H1, H3. now repeat split.
Qed.

(** X14: the script body of [6_structured_output.py] never raises: a failed
    extraction is reported and the four demonstrations still run; in all it
    sends between 15 and 43 requests. *)
Theorem main_never_raises : runs_within main 15 43.
Proof.
  unfold main.
  apply (@runs_within_seq _ _ 0 0 15 43); [apply runs_within_print|].
  apply (@runs_within_seq _ _ 0 0 15 43); [apply runs_within_print|].
  apply (@runs_within_seq _ _ 0 0 15 43); [apply runs_within_print|].
  apply (@runs_within_seq _ _ 1 1 14 42); [apply main_extraction_bounds|].
  apply (@runs_within_seq _ _ 0 0 14 42); [apply runs_within_print|].
  apply (@runs_within_seq _ _ 3 9 11 33);
    [apply demonstrate_query_analysis_bounds|].
  apply (@runs_within_seq _ _ 0 0 11 33); [apply runs_within_print|].
  apply (@runs_within_seq _ _ 4 12 7 21);
    [apply demonstrate_security_audit_bounds|].
  apply (@runs_within_seq _ _ 0 0 7 21); [apply runs_within_print|].
  apply (@runs_within_seq _ _ 3 9 4 12);
    [apply demonstrate_performance_report_bounds|].
  apply (@runs_within_seq _ _ 0 0 4 12); [apply runs_within_print|].
  apply test_edge_cases_bounds.
Qed.

(** The enforcer at an endpoint that gives the same valid answer to every
    request: one request per call. *)
Lemma enforcer_call_valid (output_schema : dict) (max_retries : Z)
  (text : str) (v : json) :
  (0 < max_retries)%Z ->
  (forall w req, snd (completion w req) = Return (text_response text)) ->
  json_loads (clean_response text) = Some v ->
  validate_schema v output_schema = true ->
  forall prompt system_message st, exists new,
    calls (snd (create_json_enforcer output_schema max_retries prompt
                  system_message st)) = calls st ++ new
    /\ (1 <= List.length new <= 1)%nat
    /\ console (snd (create_json_enforcer output_schema max_retries prompt
                       system_message st)) = console st.
Proof.
  intros Hpos Hans Hparse Hv prompt system_message st.
  unfold create_json_enforcer.
  erewrite enforce_first_answer; try eassumption.
  - eexists. cbn [snd calls console]. repeat split; cbn; lia.
  - rewrite (surjective_pairing (completion _ _)). now rewrite Hans.
Qed.

(** The enforcer at an endpoint that gives the same failing answer to every
    request: as many requests per call as the ceiling allows. *)
Lemma enforcer_call_failing (output_schema : dict) (max_retries : Z)
  (text : str) :
  (0 < max_retries)%Z ->
  (forall w req, snd (completion w req) = Return (text_response text)) ->
  (json_loads (clean_response text) = None
   \/ exists v, json_loads (clean_response text) = Some v
                /\ validate_schema v output_schema = false) ->
  forall prompt system_message st, exists new,
    calls (snd (create_json_enforcer output_schema max_retries prompt
                  system_message st)) = calls st ++ new
    /\ (Z.to_nat max_retries <= List.length new <= Z.to_nat max_retries)%nat
    /\ console (snd (create_json_enforcer output_schema max_retries prompt
                       system_message st)) = console st.
Proof.
  intros Hpos Hans Hbad prompt system_message st.
  unfold create_json_enforcer.
  assert (Hout : exists e, is_ValueError e = true
            /\ forall k, outcome_at output_schema
                           (or_default system_message default_system_msg)
                           (initial_json_prompt output_schema prompt) st k
                         = Raise e).
  { destruct Hbad as [Hnone | (v & Hsome & Hv)].
    - exists (JSONDecodeError (decode_msg (clean_response text))).
      split; [reflexivity|]. intros k. unfold outcome_at.
      erewrite attempt_body_text
        by (rewrite (surjective_pairing (completion _ _)); now rewrite Hans).
      now rewrite Hnone.
    - exists (ValueError (py "Schema validation failed")).
      split; [reflexivity|]. intros k. unfold outcome_at.
      erewrite attempt_body_text
        by (rewrite (surjective_pairing (completion _ _)); now rewrite Hans).
      now rewrite Hsome, Hv. }
  destruct Hout as (e & He & Hall).
  destruct (@enforce_constant_failure output_schema max_retries prompt
              system_message st e Hpos He Hall) as (_ & H2 & H3).
  eexists. split; [exact H2|]. rewrite requests_upto_length.
  split; [lia|exact H3].
Qed.

Lemma edge_loop_bounds_for (enforcer : str -> option str -> M json)
  (lo hi : nat) (cases : list str) :
  (forall prompt system_message st, exists new,
      calls (snd (enforcer prompt system_message st)) = calls st ++ new
      /\ (lo <= List.length new <= hi)%nat
      /\ console (snd (enforcer prompt system_message st)) = console st) ->
  forall i,
    runs_within (edge_loop enforcer i cases)
      (List.length cases * lo) (List.length cases * hi).
Proof.
  intros Hcall. induction cases as [|edge_case rest IH]; intros i.
  - apply runs_within_ret.
  - cbn [edge_loop].
    eapply runs_within_weaken;
      [ eapply runs_within_seq; [apply runs_within_print|];
        eapply runs_within_seq; [apply runs_within_print|];
        eapply runs_within_seq;
        [apply runs_within_report; intros st; apply Hcall|apply IH]
      | cbn [List.length]; lia
      | cbn [List.length]; lia ].
Qed.

(** X15: both bounds of [test_edge_cases] are met: at an endpoint whose
    every answer parses and has the three keys the function sends exactly 4
    requests, one per edge case; at an endpoint whose every answer fails to
    parse or lacks a key it sends exactly 12, three per edge case, and still
    returns. *)
Theorem test_edge_cases_cost (text : str) :
  (forall w req, snd (completion w req) = Return (text_response text)) ->
  (forall v,
      json_loads (clean_response text) = Some v ->
      validate_schema v simple_schema = true ->
      runs_within test_edge_cases 4 4)
  /\ ((json_loads (clean_response text) = None
       \/ exists v, json_loads (clean_response text) = Some v
                    /\ validate_schema v simple_schema = false) ->
      runs_within test_edge_cases 12 12).
Proof.
  intros Hans. split.
  - intros v Hparse Hv. unfold test_edge_cases.
    apply (@runs_within_seq _ _ 0 0 4 4); [apply runs_within_print|].
    apply (@edge_loop_bounds_for _ 1 1 edge_cases).
    now apply enforcer_call_valid with (text := text) (v := v).
  - intros Hbad. unfold test_edge_cases.
    apply (@runs_within_seq _ _ 0 0 12 12); [apply runs_within_print|].
    apply (@edge_loop_bounds_for _ 3 3 edge_cases).
    now apply (@enforcer_call_failing simple_schema default_max_retries text).
Qed.

(** ** Further properties of the pattern demonstration *)

Lemma flat_map_pairs_nth (exs : list (str * str)) :
  forall (i : nat) (input output : str),
    nth_error exs i = Some (input, output) ->
    nth_error
      (flat_map (fun ex => [ {| role := py "user"; content := fst ex |};
                             {| role := py "assistant"; content := snd ex |} ])
         exs) (2 * i)
    = Some {| role := py "user"; content := input |}
    /\ nth_error
         (flat_map (fun ex => [ {| role := py "user"; content := fst ex |};
                                {| role := py "assistant"; content := snd ex |} ])
            exs) (2 * i + 1)
       = Some {| role := py "assistant"; content := output |}.
Proof.
  induction exs as [|ex exs IH]; intros i input output H.
  - destruct i; discriminate.
  - destruct i as [|i].
    + cbn in H. injection H as ->. now split.
    + cbn [nth_error] in H. destruct (IH i input output H) as [H1 H2].
      replace (2 * S i)%nat with (S (S (2 * i))) by lia.
      cbn [flat_map app nth_error Nat.add]. now split.
Qed.

Lemma flat_map_pairs_length (exs : list (str * str)) :
  List.length
    (flat_map (fun ex => [ {| role := py "user"; content := fst ex |};
                           {| role := py "assistant"; content := snd ex |} ])
       exs)
  = (2 * List.length exs)%nat.
Proof.
  induction exs as [|ex exs IH]; [reflexivity|].
  cbn [flat_map app List.length]. rewrite IH. lia.
Qed.

(** X16: the message list built for a pattern has two messages per example
    plus two: the system message first, then for each example, in order, its
    input as a user turn followed by its output as an assistant turn, and the
    test query as the last user turn. *)
Theorem pattern_messages_shape (pattern_data : Pattern) :
  List.length (pattern_messages pattern_data)
  = (2 * List.length (examples pattern_data) + 2)%nat
  /\ nth_error (pattern_messages pattern_data) 0
     = Some {| role := py "system";
               content := py "You are a SQL expert. Follow the exact format shown in examples." |}
  /\ nth_error (pattern_messages pattern_data)
       (2 * List.length (examples pattern_data) + 1)
     = Some {| role := py "user"; content := test pattern_data |}
  /\ forall i input output,
       nth_error (examples pattern_data) i = Some (input, output) ->
       nth_error (pattern_messages pattern_data) (2 * i + 1)
       = Some {| role := py "user"; content := input |}
       /\ nth_error (pattern_messages pattern_data) (2 * i + 2)
          = Some {| role := py "assistant"; content := output |}.
Proof.
  unfold pattern_messages. split; [|split; [|split]].
  - cbn [app List.length]. rewrite length_app, flat_map_pairs_length.
    cbn [List.length]. lia.
  - reflexivity.
  - cbn [app]. replace (2 * List.length (examples pattern_data) + 1)%nat
      with (S (2 * List.length (examples pattern_data))) by lia.
    cbn [nth_error]. rewrite nth_error_app2; rewrite flat_map_pairs_length;
      [|lia].
    now rewrite Nat.sub_diag.
  - intros i input output H.
    destruct (flat_map_pairs_nth _ _ H) as [H1 H2].
    assert (Hi : (i < List.length (examples pattern_data))%nat)
      by (apply nth_error_Some; congruence).
    cbn [app].
    replace (2 * i + 1)%nat with (S (2 * i)) by lia.
    replace (2 * i + 2)%nat with (S (2 * i + 1)) by lia.
    cbn [nth_error].
    rewrite !nth_error_app1 by (rewrite flat_map_pairs_length; lia).
    now split.
Qed.

(** One round of [pattern_loop] when the request is answered with at least
    one choice. *)
Lemma pattern_loop_cons (pattern_name : str) (pattern_data : Pattern)
  (rest : list (str * Pattern)) (st : State) (w' : World)
  (response : ModelResponse) (c : Choice) (cs : list Choice) :
  completion (world st) (pattern_request pattern_data) = (w', Return response) ->
  choices response = c :: cs ->
  pattern_loop ((pattern_name, pattern_data) :: rest) st
  = pattern_loop rest
      {| world := w';
         calls := calls st ++ [pattern_request pattern_data];
         console := console st
                    ++ [py "--- " ++ pattern_name ++ py " Pattern ---";
                        py "Input: " ++ test pattern_data;
                        py "Output:";
                        blue (str_of_optional (message_content (message c)));
                        [] ] |}.
Proof.
  intros Hc Hch. cbn [pattern_loop]. unfold first_content. run_monad.
  rewrite Hc, Hch. cbn [world calls console]. f_equal.
  now rewrite <- !app_assoc.
Qed.

(** X17: when every request is answered with at least one choice, the loop
    of [demonstrate_pattern_learning] returns, having sent one request per
    pattern, in the order of the patterns, and printed five lines per
    pattern. *)
Theorem pattern_loop_answers_all (items : list (str * Pattern)) :
  (forall w req, exists response c cs,
      snd (completion w req) = Return response /\ choices response = c :: cs) ->
  forall st,
    fst (pattern_loop items st) = Return tt
    /\ calls (snd (pattern_loop items st))
       = calls st ++ map (fun item => pattern_request (snd item)) items
    /\ List.length (console (snd (pattern_loop items st)))
       = (List.length (console st) + 5 * List.length items)%nat.
Proof.
  intros Hans. induction items as [|[pattern_name pattern_data] rest IH];
    intros st.
  - cbn. rewrite app_nil_r. repeat split. lia.
  - destruct (Hans (world st) (pattern_request pattern_data))
      as (response & c & cs & Hr & Hch).
    rewrite (@pattern_loop_cons pattern_name pattern_data rest st
               (fst (completion (world st) (pattern_request pattern_data)))
               response c cs)
      by (try exact Hch;
          rewrite (surjective_pairing (completion _ _)); now rewrite Hr).
    match goal with
    | |- context [pattern_loop rest ?s] => destruct (IH s) as (H1 & H2 & H3)
    end.
    split; [exact H1|]. rewrite H2, H3. cbn [calls console map snd].
    rewrite <- app_assoc, !length_app. cbn [List.length app].
    split; [reflexivity|lia].
Qed.

(** ** The approaches of [2_few_shot_learning.py] *)

Lemma sends_finish : sends (finish tt) [].
Proof. intros ss. cbn. now rewrite app_nil_r. Qed.

Lemma sends_say (line : str) : sends (say line) [].
Proof. intros ss. cbn. now rewrite app_nil_r. Qed.

Lemma sends_seq (c k : Run unit) (cs cs' : list Call) :
  sends c cs -> sends k cs' -> sends (c >>> k) (cs ++ cs').
Proof.
  intros Hc Hk ss. unfold and_then.
  destruct (Hc ss) as [Hr Hs]. destruct (c ss) as [r ss1].
  cbn [fst snd] in *. subst r.
  destruct (Hk ss1) as [Hr' Hs']. split; [exact Hr'|].
  now rewrite Hs', Hs, app_assoc.
Qed.

(** The [try]/[except] around a function that makes one call and returns
    the content of the first choice. *)
Lemma sends_show_result (call : Call) :
  sends
    (show_result
       (response <~ send call ;; fun ss => (first_content response, ss)))
    [call].
Proof.
  intros ss. unfold show_result, try_run, and_then, send, say.
  destruct (completion_call (endpoint ss) call) as [w' [response|e]];
    [|now split].
  destruct (first_content response) as [text|e]; now split.
Qed.

Lemma compare_loop_sends (schema : list (str * list str))
  (queries : list str) :
  forall i, sends (compare_loop schema i queries)
              (flat_map (calls_for schema) queries).
Proof.
  induction queries as [|query rest IH]; intros i.
  - apply sends_finish.
  - cbn [compare_loop flat_map].
    apply (@sends_seq _ _ [] _ (sends_say _)).
    apply (@sends_seq _ _ [] _ (sends_say _)).
    apply (@sends_seq _ _ [] _ (sends_say _)).
    apply (@sends_seq _ _ [zero_shot_call query] _ (sends_show_result _)).
    apply (@sends_seq _ _ [] _ (sends_say _)).
    apply (@sends_seq _ _ [few_shot_call query] _ (sends_show_result _)).
    apply (@sends_seq _ _ [] _ (sends_say _)).
    apply (@sends_seq _ _ [advanced_call query schema] _ (sends_show_result _)).
    apply (@sends_seq _ _ [] _ (sends_say _)).
    apply IH.
Qed.

(** X18: [compare_approaches] never raises, whatever the endpoint does: a
    failing approach is reported and the next one runs, so every query gets
    its zero-shot, few-shot and schema-aware call, in that order, twelve
    calls in all. *)
Theorem compare_approaches_sends_all (ss : Session) :
  fst (compare_approaches ss) = Return tt
  /\ sent (snd (compare_approaches ss))
     = sent ss ++ flat_map (calls_for mock_schema) test_queries
  /\ List.length (flat_map (calls_for mock_schema) test_queries) = 12%nat.
Proof.
  destruct (@sends_seq _ _ [] _
              (sends_say (py "=== ZERO-SHOT vs FEW-SHOT COMPARISON ===" ++ nl))
              (compare_loop_sends mock_schema test_queries 1) ss)
    as [H1 H2].
  split; [exact H1|]. split; [exact H2|reflexivity].
Qed.

Lemma schema_info_loop_app (items : list (str * list str)) :
  forall schema_info,
    schema_info_loop schema_info items
    = schema_info
        ++ List.concat (map (fun item => schema_line (fst item) (snd item)) items).
Proof.
  induction items as [|[table columns] rest IH]; intros schema_info.
  - cbn. now rewrite app_nil_r.
  - cbn [schema_info_loop map List.concat fst snd].
    now rewrite IH, <- app_assoc.
Qed.

(** X19: the schema description of [advanced_few_shot_with_context] is the
    heading followed by one line per table, in the order of the mapping; so
    every table of the schema is described in the system message, with its
    columns separated by commas, and an empty schema gives the heading
    alone. *)
Theorem schema_info_lists_every_table (table_schema : list (str * list str)) :
  schema_info_of table_schema
  = py "Available tables and columns:" ++ nl
      ++ List.concat (map (fun item => schema_line (fst item) (snd item))
                        table_schema)
  /\ (forall table columns,
        In (table, columns) table_schema ->
        contains (schema_info_of table_schema) (schema_line table columns) = true)
  /\ (forall user_query,
        exists before,
          nth_error (call_messages (advanced_call user_query table_schema)) 0
          = Some {| role := py "system";
                    content := before ++ schema_info_of table_schema |}).
Proof.
  assert (E : schema_info_of table_schema
              = py "Available tables and columns:" ++ nl
                  ++ List.concat (map (fun item => schema_line (fst item) (snd item))
                                    table_schema)).
  { unfold schema_info_of. rewrite schema_info_loop_app.
    now rewrite <- app_assoc. }
  split; [exact E|]. split.
  - intros table columns Hin. rewrite E. apply contains_spec.
    apply in_split in Hin as (l1 & l2 & ->).
    rewrite map_app, concat_app. cbn [map List.concat fst snd].
    exists (py "Available tables and columns:" ++ nl
              ++ List.concat (map (fun item => schema_line (fst item) (snd item)) l1)),
      (List.concat (map (fun item => schema_line (fst item) (snd item)) l2)).
    now rewrite <- !app_assoc.
  - intros user_query.
    exists (py "You are a SQL expert. Generate queries based on the schema."
              ++ nl ++ nl).
    cbn [advanced_call call_messages nth_error]. now rewrite <- !app_assoc.
Qed.

(** ** The cleaning in front of the parser *)

Lemma isspace_cases (c : char) :
  isspace c = true ->
  (9 <= c <= 13 \/ 28 <= c <= 32 \/ c = 133 \/ c = 160 \/ c = 5760
   \/ 8192 <= c <= 8202 \/ c = 8232 \/ c = 8233 \/ c = 8239 \/ c = 8287
   \/ c = 12288)%N.
Proof.
  unfold isspace.
  rewrite !orb_true_iff, !andb_true_iff, !N.leb_le, !N.eqb_eq. tauto.
Qed.

(** White space of Python that is no white space of JSON starts no token. *)
Lemma isspace_lex_idle (c : char) :
  isspace c = true ->
  lex_idle c = Some (LIdle, []) \/ lex_idle c = None.
Proof.
  intros H. apply isspace_cases in H.
  unfold lex_idle, is_json_ws, is_word_char, is_digit.
  destruct (N.eq_dec c 32) as [->|]; [now left|].
  destruct (N.eq_dec c 9) as [->|]; [now left|].
  destruct (N.eq_dec c 10) as [->|]; [now left|].
  destruct (N.eq_dec c 13) as [->|]; [now left|].
  right. split_tests.
Qed.

Lemma isspace_not_word (c : char) : isspace c = true -> is_word_char c = false.
Proof.
  intros H. apply isspace_cases in H. unfold is_word_char, is_digit.
  split_tests.
Qed.

(** In front of a text, white space changes nothing for the lexer when the
    text is accepted. *)
Lemma lex_lstrip (s : str) (ts : list token) :
  lex LIdle s = Some ts -> lex LIdle (lstrip s) = Some ts.
Proof.
  induction s as [|c s IH]; [trivial|].
  cbn [lstrip]. destruct (isspace c) eqn:E; [|trivial].
  cbn [lex lex_step]. destruct (isspace_lex_idle c E) as [-> | ->];
    [|discriminate].
  destruct (lex LIdle s) as [rest|]; [|discriminate].
  cbn [app]. intros H. now apply IH.
Qed.

(** No text of white space alone ends a string or an escape. *)
Lemma lex_space_in_string (w : str) :
  Forall (fun c => isspace c = true) w ->
  forall acc high,
    lex (LStr acc high) w = None
    /\ lex (LEsc acc high) w = None
    /\ forall ds, lex (LHex acc high ds) w = None.
Proof.
  induction 1 as [|c w Hc _ IH]; intros acc high; [now repeat split|].
  apply isspace_cases in Hc.
  assert (Hstr : lex (LStr acc high) (c :: w) = None).
  { cbn [lex lex_step].
    destruct (N.eqb_spec c 34); [lia|]. destruct (N.eqb_spec c 92); [lia|].
    destruct (N.ltb_spec c 32); [reflexivity|].
    now destruct (IH (c :: acc) false) as [-> _]. }
  split; [exact Hstr|]. split.
  - cbn [lex lex_step]. split_tests.
  - intros ds. cbn [lex lex_step].
    assert (hex_value c = None) as -> by (unfold hex_value, is_digit; split_tests).
    reflexivity.
Qed.

(** After an accepted text, white space changes nothing for the lexer. *)
Lemma lex_space_end (w : str) :
  Forall (fun c => isspace c = true) w ->
  forall st ts, lex st w = Some ts -> lex st [] = Some ts.
Proof.
  induction 1 as [|c w Hc Hw IH]; intros st ts; [trivial|].
  destruct st as [|word|acc high|acc high|acc high ds].
  - cbn [lex lex_step]. destruct (isspace_lex_idle c Hc) as [-> | ->];
      [|discriminate].
    destruct (lex LIdle w) as [rest|] eqn:E; [|discriminate].
    cbn [app]. intros [= <-]. exact (IH _ _ E).
  - cbn [lex lex_step]. rewrite (isspace_not_word c Hc).
    destruct (atom_of_word (rev word)) as [v|]; [|discriminate].
    destruct (isspace_lex_idle c Hc) as [-> | ->]; [|discriminate].
    destruct (lex LIdle w) as [rest|] eqn:E; [|discriminate].
    apply IH in E. cbn in E. injection E as <-. trivial.
  - intros H. pose proof (lex_space_in_string (Forall_cons c Hc Hw) acc high)
      as [E _]. congruence.
  - intros H. pose proof (lex_space_in_string (Forall_cons c Hc Hw) acc high)
      as (_ & E & _). congruence.
  - intros H. pose proof (lex_space_in_string (Forall_cons c Hc Hw) acc high)
      as (_ & _ & E). rewrite E in H. discriminate.
Qed.

Lemma lex_app_space (s w : str) :
  Forall (fun c => isspace c = true) w ->
  forall st ts, lex st (s ++ w) = Some ts -> lex st s = Some ts.
Proof.
  intros Hw. induction s as [|c s IH]; intros st ts.
  - now apply lex_space_end.
  - cbn [app lex]. destruct (lex_step st c) as [[st' toks]|]; [|trivial].
    destruct (lex st' (s ++ w)) as [rest|] eqn:E; [|discriminate].
    now rewrite (IH _ _ E).
Qed.

Lemma lstrip_split (s : str) :
  exists a, s = a ++ lstrip s /\ Forall (fun c => isspace c = true) a.
Proof.
  induction s as [|c s (a & Ha & Hf)]; cbn [lstrip].
  - exists []. now split.
  - destruct (isspace c) eqn:E.
    + exists (c :: a). split; [cbn; now rewrite <- Ha|now constructor].
    + exists []. now split.
Qed.

Lemma rstrip_split (s : str) :
  exists b, s = rstrip s ++ b /\ Forall (fun c => isspace c = true) b.
Proof.
  unfold rstrip. destruct (lstrip_split (rev s)) as (a & Ha & Hf).
  exists (rev a). split.
  - rewrite <- rev_app_distr, <- Ha. now rewrite rev_involutive.
  - now apply Forall_rev.
Qed.

Lemma lex_strip (s : str) (ts : list token) :
  lex LIdle s = Some ts -> lex LIdle (strip s) = Some ts.
Proof.
  intros H. apply lex_lstrip in H. unfold strip.
  destruct (rstrip_split (lstrip s)) as (b & Hb & Hf).
  rewrite Hb in H. now apply (lex_app_space _ Hf) in H.
Qed.

(** An accepted text does not start with a backtick. *)
Lemma lex_not_fenced (s : str) (ts : list token) :
  lex LIdle s = Some ts -> startswith s fence = false.
Proof.
  destruct s as [|c s]; [reflexivity|].
  rewrite fence_eq. cbn [startswith lex lex_step].
  destruct (N.eqb_spec c backtick) as [->|]; [discriminate|reflexivity].
Qed.

(** X20: the cleaning never damages a good response: whenever the raw
    content is a JSON text, the cleaned text parses to the same value.  So
    the enforcer accepts, on the key check alone, every response that
    [extract_structured_data] can parse. *)
Theorem cleaning_preserves_json (raw : str) (v : json) :
  json_loads raw = Some v -> json_loads (clean_response raw) = Some v.
Proof.
  unfold json_loads. destruct (lex LIdle raw) as [ts|] eqn:E; [|discriminate].
  intros Hp. apply lex_strip in E. unfold clean_response.
  rewrite (clean_fences_unfenced _ (lex_not_fenced _ E)). now rewrite E.
Qed.

End Scripts.

(** ** The theorems at a scripted endpoint *)

(** C1 at an endpoint that first answers [not json at all], then the fenced
    object: the second attempt is the first success and is returned. *)
Lemma enforcer_first_success_witness :
  let st := Build_State [Return (text_response not_json);
                         Return (text_response fenced_success);
                         Return (text_response not_json)] [] [] in
  let run := create_json_enforcer scripted_completion no_env dumps_keys
               plain_decode_msg simple_schema 3 (py "hi") None st in
  fst run = Return success_mapping /\ List.length (calls (snd run)) = 2%nat.
Proof.
  intros st run.
  destruct (enforcer_bounded_and_returns_first_success scripted_completion
              no_env dumps_keys plain_decode_msg simple_schema 3 (py "hi")
              None st) as [_ H].
  destruct (H 1%nat success_mapping) as (H1 & H2 & H3 & _).
  - vm_compute. lia.
  - intros j Hj. assert (j = 0%nat) as -> by lia. reflexivity.
  - reflexivity.
  - split; [exact H1|]. subst run. rewrite H2. exact H3.
Defined.

(** C2 at an endpoint that answers [not json at all] three times: the
    message of the exception, and the messages of the three requests. *)
Lemma enforcer_raises_witness :
  let st := Build_State [Return (text_response not_json);
                         Return (text_response not_json);
                         Return (text_response not_json)] [] [] in
  let run := create_json_enforcer scripted_completion no_env dumps_keys
               plain_decode_msg simple_schema 3 (py "hi") None st in
  let p0 := initial_json_prompt dumps_keys simple_schema (py "hi") in
  let system :=
    {| role := py "system";
       content := py "You are a JSON-only API. Return only valid JSON." |} in
  (0 < 3)%Z
  /\ fst run
     = Raise (Exception_
                (py "Failed to get valid JSON after 3 attempts: Expecting value")
                (JSONDecodeError (py "Expecting value")))
  /\ map (fun request => messages request) (calls (snd run))
     = [ [ system; {| role := py "user"; content := p0 |} ];
         [ system;
           {| role := py "user";
              content :=
                p0 ++ nl ++ nl
                  ++ py "ATTEMPT 2: Previous attempt failed. Return ONLY valid JSON." |} ];
         [ system;
           {| role := py "user";
              content :=
                p0 ++ nl ++ nl
                  ++ py "ATTEMPT 2: Previous attempt failed. Return ONLY valid JSON."
                  ++ nl ++ nl
                  ++ py "ATTEMPT 3: Previous attempt failed. Return ONLY valid JSON." |} ] ].
Proof.
  intros st run p0 system. split; [lia|].
  destruct (@enforcer_raises_after_ceiling _ scripted_completion no_env
              dumps_keys plain_decode_msg simple_schema 3 (py "hi") None st)
    as [H _]; [lia|].
  destruct H as (e & H1 & _ & H3 & H4 & _).
  - intros k Hk. destruct k as [|[|[|k]]]; try reflexivity.
    vm_compute in Hk. lia.
  - assert (He : Raise e = @Raise json (JSONDecodeError (py "Expecting value")))
      by (rewrite <- H1; reflexivity).
    injection He as ->. subst run. split.
    + rewrite H3. reflexivity.
    + rewrite H4. reflexivity.
Defined.

(** C3 at the same endpoint, for the first attempt: the second request
    repeats the first user message and adds the note for attempt 2. *)
Lemma corrective_note_witness :
  let st := Build_State [Return (text_response not_json);
                         Return (text_response not_json);
                         Return (text_response not_json)] [] [] in
  let run := create_json_enforcer scripted_completion no_env dumps_keys
               plain_decode_msg simple_schema 3 (py "hi") None st in
  let p0 := initial_json_prompt dumps_keys simple_schema (py "hi") in
  let system :=
    {| role := py "system";
       content := py "You are a JSON-only API. Return only valid JSON." |} in
  exists failed amended,
    nth_error (calls (snd run)) 0 = Some failed
    /\ nth_error (calls (snd run)) 1 = Some amended
    /\ messages failed = [ system; {| role := py "user"; content := p0 |} ]
    /\ messages amended
       = [ system;
           {| role := py "user";
              content :=
                p0 ++ nl ++ nl
                  ++ py "ATTEMPT 2: Previous attempt failed. Return ONLY valid JSON." |} ].
Proof.
  intros st run p0 system.
  destruct (@corrective_note_then_raise _ scripted_completion no_env dumps_keys
              plain_decode_msg simple_schema 3 (py "hi") None st 0%nat)
    as [H _].
  - intros j Hj. assert (j = 0%nat) as -> by lia. reflexivity.
  - destruct H as (more & Hcalls & failed & amended & user_prompt
                   & N0 & N1 & M0 & M1 & _); [vm_compute; lia|].
    exists failed, amended.
    split; [exact N0|]. split; [exact N1|].
    assert (Hfirst : messages failed
                     = [ system; {| role := py "user"; content := p0 |} ]).
    { rewrite Hcalls in N0. cbn in N0. injection N0 as <-. reflexivity. }
    split; [exact Hfirst|].
    rewrite M0 in Hfirst. injection Hfirst as ->. exact M1.
Defined.

(** C4 at a tagged fence with white space around it. *)
Lemma fence_stripping_witness :
  let text := py " ```json" ++ nl ++ py "{}" ++ nl ++ py "``` " in
  startswith (strip text) fence = true
  /\ contains (clean_response text) fence = false
  /\ clean_response text = py "{}".
Proof.
  intros text.
  assert (Hf : startswith (strip text) fence = true) by reflexivity.
  destruct (fence_stripping_removes_markers text Hf) as [H1 H2].
  split; [exact Hf|]. split; [exact H1|].
  destruct (H2 (nl ++ py "{}" ++ nl)) as [H3 _].
  - repeat constructor; discriminate.
  - rewrite H3; reflexivity.
Defined.

(** C4 as it is stated, for every response text, fails on a text that does
    not start with a marker: the cleaning leaves it as it is, so a trailing
    marker stays, and so do the markers of a fenced block that follows an
    introductory sentence. *)
Lemma fence_stripping_counterexample :
  clean_response (py "{}```") = py "{}```"
  /\ contains (clean_response (py "{}```")) fence = true
  /\ clean_response (py "Here is the JSON:" ++ nl ++ fenced_success)
     = py "Here is the JSON:" ++ nl ++ fenced_success
  /\ ~ (forall text, contains (clean_response text) fence = false).
Proof.
  split; [reflexivity|]. split; [reflexivity|]. split; [reflexivity|].
  intros H. specialize (H (py "{}```")). discriminate H.
Qed.

(** C5 at the mapping of the scenario. *)
Lemma validate_schema_witness :
  validate_schema success_mapping simple_schema = true.
Proof.
  apply (proj1 (validate_schema_keys_only success_mapping simple_schema)).
  exists [ (py "status", JStr (py "success")); (py "message", JStr (py "ok"));
           (py "data", JNull) ].
  split; [reflexivity|]. intros key Hk. exact Hk.
Defined.

(** C6 at an endpoint whose first answer is the fenced object. *)
Lemma fenced_success_witness :
  let st := Build_State [Return (text_response fenced_success)] [] [] in
  enforce_json_output scripted_completion no_env dumps_keys plain_decode_msg
    simple_schema 3 (py "hi") None st
  = (Return success_mapping,
     Build_State []
       [enforcer_request no_env default_system_msg
          (initial_json_prompt dumps_keys simple_schema (py "hi"))] []).
Proof.
  intros st.
  destruct (@fenced_success_returned _ scripted_completion no_env dumps_keys
              plain_decode_msg simple_schema 3 (py "hi") None st [])
    as (_ & _ & _ & H).
  - reflexivity.
  - lia.
  - reflexivity.
  - exact H.
Defined.

(** C7 at an endpoint that refuses the first request and would answer the
    second: the second answer is never asked for. *)
Lemma pattern_learning_witness :
  let st := Build_State [Raise (APIError (py "rate limited"));
                         Return (text_response (py "ISSUE: none"))] [] [] in
  fst (demonstrate_pattern_learning scripted_completion no_env st)
  = Raise (APIError (py "rate limited"))
  /\ world (snd (demonstrate_pattern_learning scripted_completion no_env st))
     = [Return (text_response (py "ISSUE: none"))].
Proof.
  intros st.
  rewrite (@pattern_learning_aborts_on_failure _ scripted_completion no_env st
             [Return (text_response (py "ISSUE: none"))]
             (APIError (py "rate limited")) eq_refl).
  split; reflexivity.
Defined.

(** C8 at an endpoint that fails on the second attempt of three. *)
Lemma other_exceptions_witness :
  let st := Build_State [Return (text_response not_json);
                         Raise (APIError (py "timeout"));
                         Return (text_response fenced_success)] [] [] in
  let run := enforce_json_output scripted_completion no_env dumps_keys
               plain_decode_msg simple_schema 3 (py "hi") None st in
  fst run = Raise (APIError (py "timeout"))
  /\ world (snd run) = [Return (text_response fenced_success)]
  /\ List.length (calls (snd run)) = 2%nat.
Proof.
  intros st run. subst run.
  rewrite (@other_exceptions_propagate _ scripted_completion no_env dumps_keys
             plain_decode_msg simple_schema 3 (py "hi") None st 1%nat
             [Return (text_response fenced_success)]
             (APIError (py "timeout"))).
  - repeat split.
  - vm_compute. lia.
  - intros j Hj. assert (j = 0%nat) as -> by lia. reflexivity.
  - reflexivity.
  - reflexivity.
Defined.

(** C9 at a tagged text with a marker inside. *)
Lemma clean_fences_witness :
  let text := py "```json{}```[]```" in
  startswith text fence_json = true
  /\ clean_fences text = strip (replace (replace text fence_json []) fence [])
  /\ contains (clean_fences text) fence = false.
Proof.
  intros text. destruct clean_fences_global_replace as [H _].
  destruct (H text) as [H1 _].
  assert (Hs : startswith text fence_json = true) by reflexivity.
  destruct (H1 Hs) as (H2 & H3 & _). now repeat split.
Defined.

(** C10 at an endpoint that answers with the fenced object. *)
Lemma extract_witness :
  let st := Build_State [Return (text_response fenced_success)] [] [] in
  fst (extract_structured_data scripted_completion no_env dumps_keys
         plain_decode_msg (py "joins users with orders") simple_schema st)
  = Raise (JSONDecodeError (plain_decode_msg fenced_success)).
Proof.
  intros st.
  destruct (extract_is_single_unchecked_parse scripted_completion no_env
              dumps_keys plain_decode_msg (py "joins users with orders")
              simple_schema st) as [_ H].
  destruct (H [] fenced_success eq_refl) as (_ & H1 & _).
  apply H1. reflexivity.
Defined.

(** ** The further properties at concrete endpoints *)

(** X3 at the mapping of the scenario with one more key, against the schema
    cut down to its first key. *)
Lemma validate_schema_monotone_witness :
  validate_schema
    (JObj [ (py "status", JStr (py "success")); (py "message", JStr (py "ok"));
            (py "data", JNull); (py "note", JInt 1) ])
    [ (py "status", JStr (py "success|error")) ] = true.
Proof.
  refine (proj1 (@validate_schema_monotone
                   [ (py "status", JStr (py "success")); (py "message", JStr (py "ok"));
                     (py "data", JNull) ] _ simple_schema _ _ _ _)).
  - reflexivity.
  - cbn. tauto.
  - cbn. tauto.
Defined.

(** X4 at an endpoint whose first answer is the fenced object. *)
Lemma enforcer_returns_only_valid_witness :
  (0 < 3)%Z /\ validate_schema success_mapping simple_schema = true.
Proof.
  split; [lia|].
  refine (proj1 (proj1 (@enforcer_returns_only_valid _ scripted_completion no_env
                          dumps_keys plain_decode_msg simple_schema 3 (py "hi") None
                          (Build_State [Return (text_response fenced_success)] [] [])
                          success_mapping _) _)).
  - reflexivity.
  - lia.
Defined.

(** X5 at an endpoint that refuses the first request. *)
Lemma enforcer_raises_no_value_error_witness :
  is_ValueError (APIError (py "timeout")) = false.
Proof.
  refine (@enforcer_raises_no_value_error _ scripted_completion no_env dumps_keys
            plain_decode_msg simple_schema 3 (py "hi") None
            (Build_State [Raise (APIError (py "timeout"))] [] [])
            (APIError (py "timeout")) _).
  reflexivity.
Defined.

(** X6 at an endpoint that answers [not json at all] once, then the fenced
    object, with an empty system message and no key in the environment: the
    second and last request, field by field. *)
Lemma enforcer_requests_chain_witness :
  let st := Build_State [Return (text_response not_json);
                         Return (text_response fenced_success)] [] [] in
  let run := create_json_enforcer scripted_completion no_env dumps_keys
               plain_decode_msg simple_schema 3 (py "hi") (Some []) st in
  List.length (calls (snd run)) = 2%nat
  /\ exists request,
      nth_error (calls (snd run)) 1 = Some request
      /\ model request = py "openrouter/openai/gpt-oss-20b"
      /\ api_key request = None
      /\ temperature request = 1 # 10
      /\ messages request
         = [ {| role := py "system";
                content := py "You are a JSON-only API. Return only valid JSON." |};
             {| role := py "user";
                content :=
                  initial_json_prompt dumps_keys simple_schema (py "hi")
                    ++ nl ++ nl
                    ++ py "ATTEMPT 2: Previous attempt failed. Return ONLY valid JSON." |} ].
Proof.
  intros st run.
  destruct (enforcer_requests_chain scripted_completion no_env dumps_keys
              plain_decode_msg simple_schema 3 (py "hi") (Some []) st)
    as ((j & Hj & Hpos & Hc & Hlen) & Hreq & Hdef & _).
  split; [reflexivity|].
  exists (enforcer_request no_env default_system_msg
            (initial_json_prompt dumps_keys simple_schema (py "hi")
               ++ retry_note 0)).
  split; [reflexivity|].
  destruct (Hreq 1%nat
              (enforcer_request no_env default_system_msg
                 (initial_json_prompt dumps_keys simple_schema (py "hi")
                    ++ retry_note 0)) eq_refl) as (H1 & H2 & H3 & H4).
  split; [exact H1|]. split; [exact H2|]. split; [exact H3|].
  rewrite H4, (Hdef (or_intror eq_refl)). cbn [seq map List.concat].
  rewrite app_nil_r. reflexivity.
Defined.

(** X7 at a ceiling of zero. *)
Lemma enforcer_without_attempts_witness :
  let st := Build_State [Return (text_response fenced_success)] [] [] in
  enforce_json_output scripted_completion no_env dumps_keys plain_decode_msg
    simple_schema 0 (py "hi") None st
  = (Return JNull, st).
Proof.
  intros st.
  apply (@enforcer_without_attempts _ scripted_completion no_env dumps_keys
           plain_decode_msg simple_schema 0 (py "hi") None st).
  lia.
Defined.

(** X8 at an endpoint whose first answer is the bare object. *)
Lemma enforcer_valid_first_answer_witness :
  let st := Build_State [Return (text_response success_payload)] [] [] in
  fst (create_json_enforcer scripted_completion no_env dumps_keys
         plain_decode_msg simple_schema 3 (py "hi") None st)
  = Return success_mapping.
Proof.
  intros st.
  rewrite (@enforcer_returns_valid_first_answer _ scripted_completion no_env
             dumps_keys plain_decode_msg simple_schema 3 (py "hi") None st []
             success_payload success_mapping);
    [reflexivity|lia|reflexivity|reflexivity|reflexivity].
Defined.

(** X9 at an endpoint that always answers with the empty object. *)
Lemma enforcer_missing_keys_witness :
  exn_str
    match fst (create_json_enforcer
                 (constant_completion (Return (text_response (py "{}"))))
                 no_env dumps_keys plain_decode_msg simple_schema 3 (py "hi")
                 None (Build_State tt [] [])) with
    | Raise e => e
    | Return _ => ValueError []
    end
  = py "Failed to get valid JSON after 3 attempts: Schema validation failed".
Proof.
  destruct (@enforcer_reports_missing_keys _
              (constant_completion (Return (text_response (py "{}"))))
              no_env dumps_keys plain_decode_msg simple_schema 3 (py "hi") None
              (Build_State tt [] []) (py "{}") (JObj [])) as [H _];
    [lia|reflexivity|reflexivity|reflexivity|].
  rewrite H. reflexivity.
Defined.

(** X10 at an endpoint that always raises a [ValueError]. *)
Lemma enforcer_value_error_witness :
  let run := create_json_enforcer
               (constant_completion (Raise (ValueError (py "bad request"))))
               no_env dumps_keys plain_decode_msg simple_schema 3 (py "hi") None
               (Build_State tt [] []) in
  fst run
  = Raise (Exception_ (failure_msg 3 (ValueError (py "bad request")))
             (ValueError (py "bad request")))
  /\ List.length (calls (snd run)) = 3%nat.
Proof.
  intros run.
  destruct (@enforcer_retries_value_error_of_endpoint _
              (constant_completion (Raise (ValueError (py "bad request"))))
              no_env dumps_keys plain_decode_msg simple_schema 3 (py "hi") None
              (Build_State tt [] []) (py "bad request")) as [H1 H2];
    [lia|reflexivity|].
  split; [exact H1|exact H2].
Defined.

(** X11 at an endpoint whose first response has no choice. *)
Lemma enforcer_empty_response_witness :
  let st := Build_State [Return {| choices := [] |};
                         Return (text_response fenced_success)] [] [] in
  fst (enforce_json_output scripted_completion no_env dumps_keys
         plain_decode_msg simple_schema 3 (py "hi") None st)
  = Raise (IndexError (py "list index out of range")).
Proof.
  intros st.
  destruct (@enforcer_aborts_on_empty_response _ scripted_completion no_env
              dumps_keys plain_decode_msg simple_schema 3 (py "hi") None st
              0%nat [Return (text_response fenced_success)]
              {| choices := [] |}) as [H _].
  - vm_compute. lia.
  - intros j Hj. lia.
  - reflexivity.
  - now rewrite (H eq_refl).
Defined.

(** X12 at an endpoint that refuses the request. *)
Lemma extract_propagates_errors_witness :
  let st := Build_State [Raise (APIError (py "timeout"))] [] [] in
  fst (extract_structured_data scripted_completion no_env dumps_keys
         plain_decode_msg query_text main_schema st)
  = Raise (APIError (py "timeout")).
Proof.
  intros st.
  destruct (extract_propagates_errors scripted_completion no_env dumps_keys
              plain_decode_msg query_text main_schema st []) as [H _].
  now rewrite (H (APIError (py "timeout")) eq_refl).
Defined.

(** X15 at an endpoint that always answers with the fenced object. *)
Lemma test_edge_cases_cost_witness :
  runs_within
    (test_edge_cases (constant_completion (Return (text_response fenced_success)))
       no_env dumps_keys plain_decode_msg) 4 4.
Proof.
  destruct (@test_edge_cases_cost _
              (constant_completion (Return (text_response fenced_success)))
              no_env dumps_keys plain_decode_msg fenced_success) as [H _].
  - reflexivity.
  - apply (H success_mapping); reflexivity.
Defined.

(** X16 at the first pattern and its first example. *)
Lemma pattern_messages_witness :
  nth_error (pattern_messages error_analysis) 1
  = Some {| role := py "user"; content := py "This query is slow" |}.
Proof.
  destruct (pattern_messages_shape error_analysis) as (_ & _ & _ & H).
  destruct (H 0%nat (py "This query is slow")
              (py "ISSUE: Performance | CAUSE: Missing index | FIX: ADD INDEX idx_user_email ON users(email)")
              eq_refl) as [H1 _].
  exact H1.
Defined.

(** X17 at an endpoint that always answers, for the two patterns. *)
Lemma pattern_loop_witness :
  let run := pattern_loop
               (constant_completion (Return (text_response (py "ISSUE: none"))))
               no_env patterns (Build_State tt [] []) in
  fst run = Return tt /\ List.length (calls (snd run)) = 2%nat.
Proof.
  intros run.
  destruct (@pattern_loop_answers_all _
              (constant_completion (Return (text_response (py "ISSUE: none"))))
              no_env patterns) with (st := Build_State tt [] [])
    as (H1 & H2 & _).
  - intros w req. eexists _, _, _. split; reflexivity.
  - split; [exact H1|]. subst run. now rewrite H2.
Defined.

(** X19 at the schema of the comparison, for the table of orders. *)
Lemma schema_info_witness :
  contains (schema_info_of mock_schema)
    (py "- orders: order_id, customer_id, status, total, created_at, shipped_at"
       ++ nl) = true.
Proof.
  destruct (schema_info_lists_every_table no_env mock_schema) as (_ & H & _).
  apply (H (py "orders")
           [py "order_id"; py "customer_id"; py "status"; py "total";
            py "created_at"; py "shipped_at"]).
  cbn. tauto.
Defined.

(** X20 at the bare object of the scenario with white space around it. *)
Lemma cleaning_preserves_json_witness :
  json_loads (clean_response (nl ++ success_payload ++ py "  " ++ nl))
  = Some success_mapping.
Proof.
  apply (@cleaning_preserves_json (nl ++ success_payload ++ py "  " ++ nl)).
  reflexivity.
Defined.
